(** * SecurePass: the record presentation engine

    A shallow embedding of the pure parts of the three record managers
    ([PasswordManager.tsx], [ApiKeyManager.tsx], [NotesManager.tsx]) and of
    the dashboard aggregation ([app/dashboard/page.tsx]), with the React
    state of the password manager written as an explicit record and the
    Firestore client as an interface whose answers are not constrained.

    Strings are byte strings holding UTF-8 text.  [toLowerCase] and [trim]
    are the ASCII restrictions of the JavaScript built-ins: letters and
    white space outside ASCII are left as they are, and the default order
    of [sort] is the order of the bytes.  On ASCII text ([asciiText]) a
    byte is a character and a UTF-16 code unit, and these are the built-ins
    of the language; a statement that the language's own built-ins would
    not satisfy on other text is made for ASCII text.  The visibility
    toggles are a finite map, which is the plain object of the source for
    every id that is not a name inherited from [Object.prototype]
    ([JSObject.plainKey]). *)

From Stdlib Require Import String Ascii List ZArith Lia Bool Arith.
From Stdlib Require Import QArith Qround DecimalString Permutation Sorted OrderedTypeEx.
From stdpp Require Import base gmap strings.
Import ListNotations.

#[local] Open Scope string_scope.
#[local] Open Scope list_scope.

(* ===================================================================== *)
(** ** JavaScript built-ins used by the source *)
(* ===================================================================== *)

Module JS.

(** [String.prototype.toLowerCase] as it is on ASCII text: the letters A to
    Z go to a to z, character by character.  Other bytes are left as they
    are, which is not what the language does to the letters outside ASCII. *)
Definition lowerChar (c : ascii) : ascii :=
  let n := nat_of_ascii c in
  if (65 <=? n)%nat && (n <=? 90)%nat then ascii_of_nat (n + 32) else c.

Fixpoint toLowerCase (s : string) : string :=
  match s with
  | EmptyString => EmptyString
  | String c r => String (lowerChar c) (toLowerCase r)
  end.

(** [s.startsWith(q)]. *)
Fixpoint startsWith (s q : string) : bool :=
  match q, s with
  | EmptyString, _ => true
  | String _ _, EmptyString => false
  | String a q', String b s' => Ascii.eqb a b && startsWith s' q'
  end.

(** [s.includes(q)]: [q] occurs in [s] at some position. *)
Fixpoint includes (s q : string) : bool :=
  startsWith s q ||
  match s with
  | EmptyString => false
  | String _ r => includes r q
  end.

(** [s.split(',')]: the segments between the commas, never an empty array. *)
Fixpoint split_comma (s : string) : list string :=
  match s with
  | EmptyString => [EmptyString]
  | String c r =>
      if Ascii.eqb c ","%char then EmptyString :: split_comma r
      else match split_comma r with
           | seg :: segs => String c seg :: segs
           | [] => [String c EmptyString]
           end
  end.

(** The white space [trim] removes from ASCII text: TAB, LF, VT, FF, CR and
    SP.  The language's [trim] also removes the white space outside ASCII
    (U+00A0, U+FEFF, the line and paragraph separators and the other space
    characters), which is left here. *)
Definition isWhiteSpace (c : ascii) : bool :=
  let n := nat_of_ascii c in
  ((9 <=? n)%nat && (n <=? 13)%nat) || (n =? 32)%nat.

Fixpoint trimStart (s : string) : string :=
  match s with
  | EmptyString => EmptyString
  | String c r => if isWhiteSpace c then trimStart r else s
  end.

Fixpoint trimEnd (s : string) : string :=
  match s with
  | EmptyString => EmptyString
  | String c r =>
      match trimEnd r with
      | EmptyString => if isWhiteSpace c then EmptyString else String c EmptyString
      | r' => String c r'
      end
  end.

Definition trim (s : string) : string := trimEnd (trimStart s).

(** Truthiness of a string: only the empty string is falsy. *)
Definition truthy (s : string) : bool :=
  match s with EmptyString => false | String _ _ => true end.

(** [s.repeat(n)]. *)
Fixpoint repeat (s : string) (n : nat) : string :=
  match n with
  | O => EmptyString
  | S k => s ++ repeat s k
  end.

(** [segs.join(sep)]. *)
Fixpoint join (sep : string) (segs : list string) : string :=
  match segs with
  | [] => EmptyString
  | [s] => s
  | s :: rest => s ++ sep ++ join sep rest
  end.

(** [arr.slice(start, end)] with the relative-index rules of the language:
    a negative index counts from the end, and both ends are clamped. *)
Definition slice {A : Type} (l : list A) (start stop : Z) : list A :=
  let len := Z.of_nat (List.length l) in
  let k := if (start <? 0)%Z then Z.max (len + start) 0 else Z.min start len in
  let final := if (stop <? 0)%Z then Z.max (len + stop) 0 else Z.min stop len in
  firstn (Z.to_nat (final - k)) (skipn (Z.to_nat k) l).

(** Decimal rendering of an integer in a text node. *)
Definition toString (z : Z) : string := NilZero.string_of_int (Z.to_int z).

(** An optional array read with [?.] or [||]: absent counts as empty. *)
Definition orEmpty {A : Type} (o : option (list A)) : list A :=
  match o with Some l => l | None => [] end.

End JS.

(* ===================================================================== *)
(** ** Record types ([lib/types.ts]) *)
(* ===================================================================== *)

Record CustomField := mkCustomField {
  label : string;
  value : string
}.

Module Password.
Record t := mk {
  id : string;
  appName : string;
  username : string;
  password : string;
  status : string;
  tags : option (list string);
  customFields : option (list CustomField)
}.
End Password.

Module ApiKey.
Record t := mk {
  id : string;
  modelName : string;
  apiKey : string;
  status : string;
  tags : option (list string);
  customFields : option (list CustomField)
}.
End ApiKey.

Module Note.
Record t := mk {
  id : string;
  title : string;
  content : string;
  tags : option (list string);
  customFields : option (list CustomField)
}.
End Note.

(** [tags && tags.some(tag => tag.toLowerCase().includes(q.toLowerCase()))]:
    an absent tag array is falsy. *)
Definition tagsMatch (tags : option (list string)) (searchQuery : string) : bool :=
  match tags with
  | None => false
  | Some ts =>
      existsb (fun tag => JS.includes (JS.toLowerCase tag) (JS.toLowerCase searchQuery)) ts
  end.

(** [values.tags ? values.tags.split(',').map(tag => tag.trim()).filter(Boolean) : []],
    the same expression in the three [handleFormSubmit]. *)
Definition tagsArray (tags : option string) : list string :=
  match tags with
  | None => []
  | Some s =>
      if JS.truthy s
      then List.filter JS.truthy (map JS.trim (JS.split_comma s))
      else []
  end.

(* ===================================================================== *)
(** ** The Firestore client, as the managers see it *)
(* ===================================================================== *)

(** How an awaited promise settles. *)
Inductive Settled (A : Type) : Type :=
| Fulfilled (a : A)
| Rejected.
Arguments Fulfilled {A} a.
Arguments Rejected {A}.

(** What a password document holds ([doc.data()]); the id is the document's. *)
Module PasswordDoc.
Record t := mk {
  appName : string;
  username : string;
  password : string;
  status : string;
  tags : option (list string);
  customFields : option (list CustomField)
}.
End PasswordDoc.

(** The four calls of [firebase/firestore] the managers make.  [W] is the
    state of the remote store and of the network; nothing is assumed about
    how a call settles or what it does to [W]. *)
Class Firestore (W : Type) := {
  getDocs : string -> W -> Settled (list (string * PasswordDoc.t)) * W;
  addDoc : string -> PasswordDoc.t -> W -> Settled string * W;
  updateDoc : string -> string -> PasswordDoc.t -> W -> Settled unit * W;
  deleteDoc : string -> string -> W -> Settled unit * W
}.

Inductive StoreCall :=
| CallGetDocs (path : string)
| CallAddDoc (path : string) (data : PasswordDoc.t)
| CallUpdateDoc (path id : string) (data : PasswordDoc.t)
| CallDeleteDoc (path id : string).

(* ===================================================================== *)
(** ** Form validation: the zod schemas behind [zodResolver] *)
(* ===================================================================== *)

Module Zod.

Inductive PathSeg :=
| Key (k : string)
| Index (i : nat).

(** The message of an issue: the one the schema gives, or the library's own
    for a value outside an enum. *)
Inductive Message :=
| Custom (text : string)
| InvalidEnumValue (received : string).

Record Issue := mkIssue {
  path : list PathSeg;
  message : Message
}.

(** [z.string().min(1, msg)] on a string. *)
Definition string_min1 (msg : string) (p : list PathSeg) (v : string) : list Issue :=
  if (String.length v <? 1)%nat then [mkIssue p (Custom msg)] else [].

(** [z.enum(['Active', 'Inactive'])] on a string. *)
Definition enum_status (p : list PathSeg) (v : string) : list Issue :=
  if String.eqb v "Active" || String.eqb v "Inactive" then []
  else [mkIssue p (InvalidEnumValue v)].

(** [z.object({ label: z.string().min(1, ...), value: z.string().min(1, ...) })]
    at position [i] of the array under [p]. *)
Definition customField (p : list PathSeg) (i : nat) (f : CustomField) : list Issue :=
  string_min1 "Label is required" (p ++ [Index i; Key "label"]) (label f) ++
  string_min1 "Value is required" (p ++ [Index i; Key "value"]) (value f).

Fixpoint customFieldsFrom (p : list PathSeg) (i : nat) (fs : list CustomField)
  : list Issue :=
  match fs with
  | [] => []
  | f :: rest => customField p i f ++ customFieldsFrom p (S i) rest
  end.

(** [z.array(z.object({...})).optional()]. *)
Definition customFields_optional (p : list PathSeg) (v : option (list CustomField))
  : list Issue :=
  match v with
  | None => []
  | Some fs => customFieldsFrom p 0 fs
  end.

End Zod.

Module PasswordForm.
(** [z.infer<typeof passwordSchema>], with [status] as the string the
    control holds. *)
Record t := mk {
  appName : string;
  username : string;
  password : string;
  status : string;
  tags : option string;
  customFields : option (list CustomField)
}.
End PasswordForm.

Module ApiKeyForm.
Record t := mk {
  modelName : string;
  apiKey : string;
  status : string;
  tags : option string;
  customFields : option (list CustomField)
}.
End ApiKeyForm.

Module NoteForm.
Record t := mk {
  title : string;
  content : string;
  tags : option string;
  customFields : option (list CustomField)
}.
End NoteForm.

(** The issues [passwordSchema.safeParse(values)] reports, in key order;
    [tags: z.string().optional()] accepts every string and absence. *)
Definition passwordSchema (v : PasswordForm.t) : list Zod.Issue :=
  Zod.string_min1 "App/Platform name is required" [Zod.Key "appName"] (PasswordForm.appName v) ++
  Zod.string_min1 "Username/Email is required" [Zod.Key "username"] (PasswordForm.username v) ++
  Zod.string_min1 "Password is required" [Zod.Key "password"] (PasswordForm.password v) ++
  Zod.enum_status [Zod.Key "status"] (PasswordForm.status v) ++
  Zod.customFields_optional [Zod.Key "customFields"] (PasswordForm.customFields v).

Definition apiKeySchema (v : ApiKeyForm.t) : list Zod.Issue :=
  Zod.string_min1 "Model name is required" [Zod.Key "modelName"] (ApiKeyForm.modelName v) ++
  Zod.string_min1 "API Key is required" [Zod.Key "apiKey"] (ApiKeyForm.apiKey v) ++
  Zod.enum_status [Zod.Key "status"] (ApiKeyForm.status v) ++
  Zod.customFields_optional [Zod.Key "customFields"] (ApiKeyForm.customFields v).

Definition noteSchema (v : NoteForm.t) : list Zod.Issue :=
  Zod.string_min1 "Title is required" [Zod.Key "title"] (NoteForm.title v) ++
  Zod.string_min1 "Content is required" [Zod.Key "content"] (NoteForm.content v) ++
  Zod.customFields_optional [Zod.Key "customFields"] (NoteForm.customFields v).

(* ===================================================================== *)
(** ** [PasswordManager.tsx] *)
(* ===================================================================== *)

Module PasswordManager.

Inductive ToastVariant := Default | Destructive.

Record Toast := mkToast {
  variant : ToastVariant;
  title : string;
  description : string
}.

Record User := mkUser { uid : string }.

(** The [useState] cells of the component, the errors held by the form, and
    two logs of what the component did to the outside: the toasts shown and
    the store calls made. *)
Record State := mkState {
  user : option User;
  passwords : list Password.t;
  isLoading : bool;
  searchQuery : string;
  platformFilter : string;
  isDialogOpen : bool;
  editingPassword : option Password.t;
  visiblePasswords : gmap string bool;
  currentPage : Z;
  entriesPerPage : Z;
  formErrors : list Zod.Issue;
  toasts : list Toast;
  storeCalls : list StoreCall
}.

Definition initialState (u : option User) : State :=
  mkState u [] true "" "all" false None ∅ 1 50 [] [] [].

Definition set_passwords (v : list Password.t) (st : State) : State :=
  mkState (user st) v (isLoading st) (searchQuery st) (platformFilter st)
    (isDialogOpen st) (editingPassword st) (visiblePasswords st) (currentPage st)
    (entriesPerPage st) (formErrors st) (toasts st) (storeCalls st).

Definition set_isLoading (v : bool) (st : State) : State :=
  mkState (user st) (passwords st) v (searchQuery st) (platformFilter st)
    (isDialogOpen st) (editingPassword st) (visiblePasswords st) (currentPage st)
    (entriesPerPage st) (formErrors st) (toasts st) (storeCalls st).

Definition set_searchQuery (v : string) (st : State) : State :=
  mkState (user st) (passwords st) (isLoading st) v (platformFilter st)
    (isDialogOpen st) (editingPassword st) (visiblePasswords st) (currentPage st)
    (entriesPerPage st) (formErrors st) (toasts st) (storeCalls st).

Definition set_platformFilter (v : string) (st : State) : State :=
  mkState (user st) (passwords st) (isLoading st) (searchQuery st) v
    (isDialogOpen st) (editingPassword st) (visiblePasswords st) (currentPage st)
    (entriesPerPage st) (formErrors st) (toasts st) (storeCalls st).

Definition set_dialog (open : bool) (editing : option Password.t) (st : State) : State :=
  mkState (user st) (passwords st) (isLoading st) (searchQuery st) (platformFilter st)
    open editing (visiblePasswords st) (currentPage st)
    (entriesPerPage st) (formErrors st) (toasts st) (storeCalls st).

Definition set_visiblePasswords (v : gmap string bool) (st : State) : State :=
  mkState (user st) (passwords st) (isLoading st) (searchQuery st) (platformFilter st)
    (isDialogOpen st) (editingPassword st) v (currentPage st)
    (entriesPerPage st) (formErrors st) (toasts st) (storeCalls st).

Definition set_currentPage (v : Z) (st : State) : State :=
  mkState (user st) (passwords st) (isLoading st) (searchQuery st) (platformFilter st)
    (isDialogOpen st) (editingPassword st) (visiblePasswords st) v
    (entriesPerPage st) (formErrors st) (toasts st) (storeCalls st).

Definition set_entriesPerPage (v : Z) (st : State) : State :=
  mkState (user st) (passwords st) (isLoading st) (searchQuery st) (platformFilter st)
    (isDialogOpen st) (editingPassword st) (visiblePasswords st) (currentPage st)
    v (formErrors st) (toasts st) (storeCalls st).

Definition set_formErrors (v : list Zod.Issue) (st : State) : State :=
  mkState (user st) (passwords st) (isLoading st) (searchQuery st) (platformFilter st)
    (isDialogOpen st) (editingPassword st) (visiblePasswords st) (currentPage st)
    (entriesPerPage st) v (toasts st) (storeCalls st).

(** [toast({...})]: one more notification. *)
Definition toast (t : Toast) (st : State) : State :=
  mkState (user st) (passwords st) (isLoading st) (searchQuery st) (platformFilter st)
    (isDialogOpen st) (editingPassword st) (visiblePasswords st) (currentPage st)
    (entriesPerPage st) (formErrors st) (toasts st ++ [t]) (storeCalls st).

Definition logCall (c : StoreCall) (st : State) : State :=
  mkState (user st) (passwords st) (isLoading st) (searchQuery st) (platformFilter st)
    (isDialogOpen st) (editingPassword st) (visiblePasswords st) (currentPage st)
    (entriesPerPage st) (formErrors st) (toasts st) (storeCalls st ++ [c]).

(** *** Search and platform filter (lines 165-176) *)

Definition searchMatch (searchQuery : string) (p : Password.t) : bool :=
  JS.includes (JS.toLowerCase (Password.appName p)) (JS.toLowerCase searchQuery) ||
  JS.includes (JS.toLowerCase (Password.username p)) (JS.toLowerCase searchQuery) ||
  tagsMatch (Password.tags p) searchQuery.

Definition platformMatch (platformFilter : string) (p : Password.t) : bool :=
  String.eqb platformFilter "all" || String.eqb (Password.appName p) platformFilter.

(** The array the [useMemo] returns. *)
Definition filtered (passwords : list Password.t) (searchQuery platformFilter : string)
  : list Password.t :=
  List.filter (fun p => searchMatch searchQuery p && platformMatch platformFilter p)
    passwords.

Definition filteredPasswords (st : State) : list Password.t :=
  filtered (passwords st) (searchQuery st) (platformFilter st).

(** *** Pagination (lines 178-189 and 476-497) *)

(** [Math.ceil(filteredPasswords.length / entriesPerPage)].  The quotient is
    taken in the rationals: an array length is below 2^32 and the page sizes
    are at most 500, where the floating-point quotient has the same ceiling. *)
Definition pageCount (len perPage : Z) : Z :=
  Qceiling (inject_Z len / inject_Z perPage).

Definition totalPages (st : State) : Z :=
  pageCount (Z.of_nat (List.length (filteredPasswords st))) (entriesPerPage st).

Definition paginatedPasswords (st : State) : list Password.t :=
  let startIndex := ((currentPage st - 1) * entriesPerPage st)%Z in
  let endIndex := (startIndex + entriesPerPage st)%Z in
  JS.slice (filteredPasswords st) startIndex endIndex.

(** The items of the page-size [<Select>]. *)
Inductive EntriesOption := Show10 | Show50 | Show100 | Show200 | Show500.

(** [Number(value)] of an item's value. *)
Definition entriesNumber (o : EntriesOption) : Z :=
  match o with
  | Show10 => 10 | Show50 => 50 | Show100 => 100 | Show200 => 200 | Show500 => 500
  end%Z.

Definition handleEntriesPerPageChange (o : EntriesOption) (st : State) : State :=
  set_currentPage 1 (set_entriesPerPage (entriesNumber o) st).

(** The effect of a new value of a dependency of the [filteredPasswords]
    memo: the memo body runs again and calls [setCurrentPage(1)]. *)
Definition memoRerun (st : State) : State := set_currentPage 1 st.

(** [setSearchQuery(e.target.value)]; a state set to the value it has does
    not render again. *)
Definition setSearchQuery (q : string) (st : State) : State :=
  if String.eqb q (searchQuery st) then st
  else memoRerun (set_searchQuery q st).

(** [onValueChange={setPlatformFilter}]. *)
Definition setPlatformFilter (c : string) (st : State) : State :=
  if String.eqb c (platformFilter st) then st
  else memoRerun (set_platformFilter c st).

(** [setPasswords(fetchedPasswords)]: always a new array. *)
Definition setPasswords (l : list Password.t) (st : State) : State :=
  memoRerun (set_passwords l st).

(** The updaters of the two navigation buttons. *)
Definition previousPage (prev : Z) : Z := Z.max (prev - 1) 1.
Definition nextPage (total prev : Z) : Z := Z.min (prev + 1) total.

Definition previousDisabled (st : State) : bool := (currentPage st =? 1)%Z.
Definition nextDisabled (st : State) : bool := (currentPage st =? totalPages st)%Z.

(** A click on a disabled button runs no handler. *)
Definition clickPrevious (st : State) : State :=
  if previousDisabled st then st
  else set_currentPage (previousPage (currentPage st)) st.

Definition clickNext (st : State) : State :=
  if nextDisabled st then st
  else set_currentPage (nextPage (totalPages st) (currentPage st)) st.

(** [Page {totalPages > 0 ? currentPage : 0} of {totalPages}]. *)
Definition pageIndicator (st : State) : string :=
  "Page " ++ JS.toString (if (totalPages st >? 0)%Z then currentPage st else 0%Z)
          ++ " of " ++ JS.toString (totalPages st).

(** *** Visibility and the table body (lines 152-154 and 394-454) *)

(** [visiblePasswords[id]] as a condition: a missing key is falsy.  This is
    the read of the plain object for an id that is no name inherited from
    [Object.prototype]; a statement about the toggles of the loaded records
    says so of their ids. *)
Definition isVisible (visible : gmap string bool) (id : string) : bool :=
  default false (visible !! id).

Definition toggleVisibility (id : string) (st : State) : State :=
  set_visiblePasswords
    (<[id := negb (isVisible (visiblePasswords st) id)]> (visiblePasswords st)) st.

(** [visiblePasswords[p.id] ? p.password : '•'.repeat(12)]. *)
Definition secretCell (visible : gmap string bool) (p : Password.t) : string :=
  if isVisible visible (Password.id p) then Password.password p
  else JS.repeat "•" 12.

Record Row := mkRow {
  appCell : string;
  usernameCell : string;
  passwordCell : string;
  tagBadges : list string;
  statusBadge : string
}.

Definition renderRow (visible : gmap string bool) (p : Password.t) : Row :=
  mkRow (Password.appName p) (Password.username p) (secretCell visible p)
        (JS.orEmpty (Password.tags p)) (Password.status p).

Inductive TableBody :=
| Spinner
| Rows (rows : list Row)
| NoneFound (text : string).

Definition renderTableBody (st : State) : TableBody :=
  if isLoading st then Spinner
  else match paginatedPasswords st with
       | [] => NoneFound "No passwords found."
       | ps => Rows (map (renderRow (visiblePasswords st)) ps)
       end.

(** *** The store actions (lines 77-126) and the submit gate (line 232) *)

Definition closeDialog (st : State) : State := set_dialog false None st.

Definition passwordsPath (u : User) : string := "users/" ++ uid u ++ "/passwords".

(** [{ id: doc.id, ...doc.data() }]. *)
Definition fromDoc (d : string * PasswordDoc.t) : Password.t :=
  Password.mk (fst d) (PasswordDoc.appName (snd d)) (PasswordDoc.username (snd d))
    (PasswordDoc.password (snd d)) (PasswordDoc.status (snd d))
    (PasswordDoc.tags (snd d)) (PasswordDoc.customFields (snd d)).

(** [{ ...values, tags: tagsArray, customFields: values.customFields || [] }]. *)
Definition dataToSave (values : PasswordForm.t) : PasswordDoc.t :=
  PasswordDoc.mk (PasswordForm.appName values) (PasswordForm.username values)
    (PasswordForm.password values) (PasswordForm.status values)
    (Some (tagsArray (PasswordForm.tags values)))
    (Some (JS.orEmpty (PasswordForm.customFields values))).

Definition fetchFailed : Toast := mkToast Destructive "Error" "Failed to fetch passwords.".
Definition saveFailed : Toast := mkToast Destructive "Error" "Failed to save password.".
Definition deleteFailed : Toast := mkToast Destructive "Error" "Failed to delete password.".
Definition updated : Toast := mkToast Default "Success" "Password updated successfully.".
Definition added : Toast := mkToast Default "Success" "Password added successfully.".
Definition deleted : Toast := mkToast Default "Success" "Password deleted.".

Section Actions.
Context {W : Type} `{Firestore W}.

Definition fetchPasswords (ws : W * State) : W * State :=
  let (w, st) := ws in
  match user st with
  | None => (w, st)
  | Some u =>
      let st1 := logCall (CallGetDocs (passwordsPath u)) (set_isLoading true st) in
      match getDocs (passwordsPath u) w with
      | (Fulfilled docs, w') => (w', set_isLoading false (setPasswords (map fromDoc docs) st1))
      | (Rejected, w') => (w', set_isLoading false (toast fetchFailed st1))
      end
  end.

Definition handleFormSubmit (values : PasswordForm.t) (ws : W * State) : W * State :=
  let (w, st) := ws in
  match user st with
  | None => (w, st)
  | Some u =>
      match editingPassword st with
      | Some editing =>
          let st1 := logCall (CallUpdateDoc (passwordsPath u) (Password.id editing)
                                (dataToSave values)) st in
          match updateDoc (passwordsPath u) (Password.id editing) (dataToSave values) w with
          | (Fulfilled _, w') =>
              let (w'', st2) := fetchPasswords (w', toast updated st1) in
              (w'', closeDialog st2)
          | (Rejected, w') => (w', toast saveFailed st1)
          end
      | None =>
          let st1 := logCall (CallAddDoc (passwordsPath u) (dataToSave values)) st in
          match addDoc (passwordsPath u) (dataToSave values) w with
          | (Fulfilled _, w') =>
              let (w'', st2) := fetchPasswords (w', toast added st1) in
              (w'', closeDialog st2)
          | (Rejected, w') => (w', toast saveFailed st1)
          end
      end
  end.

Definition handleDelete (id : string) (ws : W * State) : W * State :=
  let (w, st) := ws in
  match user st with
  | None => (w, st)
  | Some u =>
      let st1 := logCall (CallDeleteDoc (passwordsPath u) id) st in
      match deleteDoc (passwordsPath u) id w with
      | (Fulfilled _, w') => fetchPasswords (w', toast deleted st1)
      | (Rejected, w') => (w', toast deleteFailed st1)
      end
  end.

(** [form.handleSubmit(handleFormSubmit)] with [zodResolver(passwordSchema)]:
    the resolver runs first; with issues the form keeps them and the handler
    is not called. *)
Definition submit (values : PasswordForm.t) (ws : W * State) : W * State :=
  let (w, st) := ws in
  match passwordSchema values with
  | [] => handleFormSubmit values (w, set_formErrors [] st)
  | issues => (w, set_formErrors issues st)
  end.

End Actions.

End PasswordManager.

(* ===================================================================== *)
(** ** [ApiKeyManager.tsx] *)
(* ===================================================================== *)

Module ApiKeyManager.

(** The predicate of [filteredKeys] (lines 144-149). *)
Definition searchMatch (searchQuery : string) (key : ApiKey.t) : bool :=
  JS.includes (JS.toLowerCase (ApiKey.modelName key)) (JS.toLowerCase searchQuery) ||
  tagsMatch (ApiKey.tags key) searchQuery.

Definition filteredKeys (apiKeys : list ApiKey.t) (searchQuery : string) : list ApiKey.t :=
  List.filter (searchMatch searchQuery) apiKeys.

(** [visibleKeys[id]] as a condition, as in the password manager. *)
Definition isVisible (visible : gmap string bool) (id : string) : bool :=
  default false (visible !! id).

(** [visibleKeys[key.id] ? key.apiKey : 'â€¢'.repeat(12)], with the literal
    as the file has it (line 331). *)
Definition secretCell (visible : gmap string bool) (key : ApiKey.t) : string :=
  if isVisible visible (ApiKey.id key) then ApiKey.apiKey key
  else JS.repeat "â€¢" 12.

End ApiKeyManager.

(* ===================================================================== *)
(** ** [NotesManager.tsx] *)
(* ===================================================================== *)

Module NotesManager.

(** The predicate of [filteredNotes] (lines 132-138). *)
Definition searchMatch (searchQuery : string) (note : Note.t) : bool :=
  JS.includes (JS.toLowerCase (Note.title note)) (JS.toLowerCase searchQuery) ||
  JS.includes (JS.toLowerCase (Note.content note)) (JS.toLowerCase searchQuery) ||
  tagsMatch (Note.tags note) searchQuery.

Definition filteredNotes (notes : list Note.t) (searchQuery : string) : list Note.t :=
  List.filter (searchMatch searchQuery) notes.

End NotesManager.

(* ===================================================================== *)
(** ** Objects used as counters, and [Array.prototype.sort] *)
(* ===================================================================== *)

Module JSObject.

(** An object literal [{}] filled by [o[k] = v] with number values: its own
    properties in the order they were created. *)
Definition t := list (string * Z).

Fixpoint get (o : t) (k : string) : option Z :=
  match o with
  | [] => None
  | (k', v) :: rest => if String.eqb k' k then Some v else get rest k
  end.

(** [o[k] = v]: an existing property keeps its place. *)
Fixpoint set (o : t) (k : string) (v : Z) : t :=
  match o with
  | [] => [(k, v)]
  | (k', v') :: rest =>
      if String.eqb k' k then (k', v) :: rest else (k', v') :: set rest k v
  end.

(** The property names every object inherits from [Object.prototype]; read
    through [o[k]] they are not numbers, so they are no keys of a counter. *)
Definition inherited : list string :=
  ["constructor"; "__proto__"; "hasOwnProperty"; "isPrototypeOf";
   "propertyIsEnumerable"; "toLocaleString"; "toString"; "valueOf";
   "__defineGetter__"; "__defineSetter__"; "__lookupGetter__"; "__lookupSetter__"].

Definition plainKey (k : string) : bool :=
  negb (existsb (String.eqb k) inherited).

Definition digit (c : ascii) : option N :=
  let n := N_of_ascii c in
  if (48 <=? n)%N && (n <=? 57)%N then Some (n - 48)%N else None.

Fixpoint digits (acc : N) (s : string) : option N :=
  match s with
  | EmptyString => Some acc
  | String c r =>
      match digit c with
      | Some d => digits (acc * 10 + d)%N r
      | None => None
      end
  end.

(** A property name is an array index when it is the canonical decimal form
    of an integer below 2^32 - 1. *)
Definition arrayIndex (k : string) : option N :=
  match k with
  | EmptyString => None
  | String c r =>
      if Ascii.eqb c "0"%char && negb (String.eqb r EmptyString) then None
      else match digits 0 k with
           | Some n => if (n <? 4294967295)%N then Some n else None
           | None => None
           end
  end.

Definition isArrayIndex (k : string) : bool :=
  match arrayIndex k with Some _ => true | None => false end.

Definition indexOf (k : string) : N :=
  match arrayIndex k with Some n => n | None => 0%N end.

Fixpoint insertIndex (k : string) (l : list string) : list string :=
  match l with
  | [] => [k]
  | k' :: rest =>
      if (indexOf k' <? indexOf k)%N then k' :: insertIndex k rest else k :: l
  end.

Definition ascendingIndex (names : list string) : list string :=
  fold_right insertIndex [] names.

(** The order in which an object lists property names created in the order
    [names]: the array indices first, in ascending numeric order, then the
    other names in creation order. *)
Definition order (names : list string) : list string :=
  ascendingIndex (List.filter isArrayIndex names) ++
  List.filter (fun k => negb (isArrayIndex k)) names.

Definition ownKeys (o : t) : list string := order (map fst o).

(** [Object.entries(o)]: each own key, in that order, with its value. *)
Definition entries (o : t) : list (string * Z) :=
  flat_map (fun k => match get o k with Some v => [(k, v)] | None => [] end)
    (ownKeys o).

End JSObject.

Module JSArray.

Section Sort.
Context {A : Type} (compareFn : A -> A -> Z).

(** [x] goes behind the leading elements that the comparator puts before it. *)
Fixpoint insert (x : A) (l : list A) : list A :=
  match l with
  | [] => [x]
  | y :: rest =>
      if (compareFn x y >? 0)%Z then y :: insert x rest else x :: l
  end.

(** [arr.sort(compareFn)]: the stable sort, written as an insertion sort. *)
Definition sort (l : list A) : list A := fold_right insert [] l.

End Sort.

End JSArray.

(* ===================================================================== *)
(** ** [app/dashboard/page.tsx] *)
(* ===================================================================== *)

Module Dashboard.

Record Datum := mkDatum {
  name : string;
  value : Z
}.

(** [counter[k] = (counter[k] || 0) + 1]. *)
Definition bump (counter : JSObject.t) (k : string) : JSObject.t :=
  JSObject.set counter k (default 0%Z (JSObject.get counter k) + 1)%Z.

(** The tags visited by the nested [forEach] over
    [[...apiKeys, ...passwords, ...notes]], in visiting order. *)
Definition tagStream (apiKeys : list ApiKey.t) (passwords : list Password.t)
    (notes : list Note.t) : list string :=
  flat_map (fun item => JS.orEmpty (ApiKey.tags item)) apiKeys ++
  flat_map (fun item => JS.orEmpty (Password.tags item)) passwords ++
  flat_map (fun item => JS.orEmpty (Note.tags item)) notes.

Definition allTags (apiKeys : list ApiKey.t) (passwords : list Password.t)
    (notes : list Note.t) : JSObject.t :=
  fold_left bump (tagStream apiKeys passwords notes) [].

Definition allPlatforms (passwords : list Password.t) : JSObject.t :=
  fold_left bump (map Password.appName passwords) [].

(** [Object.entries(counts).map(([name, value]) => ({ name, value }))
      .sort((a, b) => b.value - a.value).slice(0, 5)]. *)
Definition chartData (counts : JSObject.t) : list Datum :=
  JS.slice
    (JSArray.sort (fun a b => (value b - value a)%Z)
       (map (fun e => mkDatum (fst e) (snd e)) (JSObject.entries counts)))
    0 5.

(** What the page holds after a load that succeeded. *)
Record State := mkState {
  countApiKeys : nat;
  countPasswords : nat;
  countNotes : nat;
  tagCounts : JSObject.t;
  platformCounts : JSObject.t
}.

Definition fetchData (apiKeys : list ApiKey.t) (passwords : list Password.t)
    (notes : list Note.t) : State :=
  mkState (List.length apiKeys) (List.length passwords) (List.length notes)
    (allTags apiKeys passwords notes) (allPlatforms passwords).

Definition tagChartData (st : State) : list Datum := chartData (tagCounts st).
Definition platformChartData (st : State) : list Datum := chartData (platformCounts st).

End Dashboard.

(* ===================================================================== *)
(** ** The statements of the specification, as definitions *)
(* ===================================================================== *)

(** [q] occurs in [s]. *)
Definition Substring (q s : string) : Prop :=
  exists pre post : string, s = (pre ++ q ++ post)%string.


(** Text made of ASCII characters only. *)
Definition isAscii (c : ascii) : bool := (nat_of_ascii c <? 128)%nat.

Fixpoint asciiText (s : string) : bool :=
  match s with
  | EmptyString => true
  | String c r => isAscii c && asciiText r
  end.

Definition allAscii (l : list string) : Prop :=
  Forall (fun s => asciiText s = true) l.











(** Every character of [s] is white space. *)
Fixpoint allWhiteSpace (s : string) : bool :=
  match s with
  | EmptyString => true
  | String c r => JS.isWhiteSpace c && allWhiteSpace r
  end.

(** Section 4.4 as written, for the three schemas. *)
Definition customFieldsValid (fs : option (list CustomField)) : Prop :=
  Forall (fun f => label f <> EmptyString /\ value f <> EmptyString) (JS.orEmpty fs).

Definition statusValid (s : string) : Prop := s = "Active" \/ s = "Inactive".

Definition passwordValid (v : PasswordForm.t) : Prop :=
  PasswordForm.appName v <> EmptyString /\
  PasswordForm.username v <> EmptyString /\
  PasswordForm.password v <> EmptyString /\
  statusValid (PasswordForm.status v) /\
  customFieldsValid (PasswordForm.customFields v).

Definition apiKeyValid (v : ApiKeyForm.t) : Prop :=
  ApiKeyForm.modelName v <> EmptyString /\
  ApiKeyForm.apiKey v <> EmptyString /\
  statusValid (ApiKeyForm.status v) /\
  customFieldsValid (ApiKeyForm.customFields v).

Definition noteValid (v : NoteForm.t) : Prop :=
  NoteForm.title v <> EmptyString /\
  NoteForm.content v <> EmptyString /\
  customFieldsValid (NoteForm.customFields v).

(** An issue is keyed by a field of the form: its path starts at one. *)
Definition keyedBy (formFields : list string) (i : Zod.Issue) : Prop :=
  exists k rest, Zod.path i = Zod.Key k :: rest /\ In k formFields.

(** Section 4.7 as written.  [firstSeen l] lists the distinct names of [l]
    in the order of their first occurrence. *)
Fixpoint firstSeen (l : list string) : list string :=
  match l with
  | [] => []
  | k :: rest => k :: List.filter (fun k' => negb (String.eqb k' k)) (firstSeen rest)
  end.

Definition frequency (l : list string) (k : string) : Z :=
  Z.of_nat (count_occ string_dec l k).

Definition byValueDescending (a b : Dashboard.Datum) : Z :=
  (Dashboard.value b - Dashboard.value a)%Z.

(** No entry is followed by one of greater value. *)
Definition descending (l : list Dashboard.Datum) : Prop :=
  StronglySorted (fun a b => (Dashboard.value b <= Dashboard.value a)%Z) l.

(** The five most frequent names of [l], a tie going to the name met first. *)
Definition topFive (l : list string) : list Dashboard.Datum :=
  firstn 5 (JSArray.sort byValueDescending
              (map (fun k => Dashboard.mkDatum k (frequency l k)) (firstSeen l))).

(** The five most frequent names of [l], a tie going to the name the
    counter object lists first. *)
Definition topFiveInKeyOrder (l : list string) : list Dashboard.Datum :=
  firstn 5 (JSArray.sort byValueDescending
              (map (fun k => Dashboard.mkDatum k (frequency l k))
                   (JSObject.order (firstSeen l)))).

(** Two password records that differ at most in the secret. *)
Definition sameButSecret (p q : Password.t) : Prop :=
  Password.id p = Password.id q /\
  Password.appName p = Password.appName q /\
  Password.username p = Password.username q /\
  Password.status p = Password.status q /\
  Password.tags p = Password.tags q /\
  Password.customFields p = Password.customFields q.

(** Section 4.6: the state of the pager after a reset.  The page is 1, and
    it is inside [1, pageCount] exactly when there is something to show. *)
Definition pageSettled (st : PasswordManager.State) : Prop :=
  PasswordManager.currentPage st = 1%Z /\
  ((1 <= PasswordManager.currentPage st <= PasswordManager.totalPages st)%Z <->
   PasswordManager.filteredPasswords st <> []).

(** Section 7: what a failed store operation leaves behind.  The list, the
    filters, the pager, the visibility toggles and the dialog are as before,
    the table shows the rows it showed, and one destructive toast was added. *)
Definition failureOnly (t : PasswordManager.Toast)
    (st st' : PasswordManager.State) : Prop :=
  PasswordManager.passwords st' = PasswordManager.passwords st /\
  PasswordManager.searchQuery st' = PasswordManager.searchQuery st /\
  PasswordManager.platformFilter st' = PasswordManager.platformFilter st /\
  PasswordManager.currentPage st' = PasswordManager.currentPage st /\
  PasswordManager.entriesPerPage st' = PasswordManager.entriesPerPage st /\
  PasswordManager.visiblePasswords st' = PasswordManager.visiblePasswords st /\
  PasswordManager.isDialogOpen st' = PasswordManager.isDialogOpen st /\
  PasswordManager.editingPassword st' = PasswordManager.editingPassword st /\
  PasswordManager.paginatedPasswords st' = PasswordManager.paginatedPasswords st /\
  PasswordManager.renderTableBody st' =
    PasswordManager.renderTableBody
      (PasswordManager.set_isLoading (PasswordManager.isLoading st') st) /\
  PasswordManager.toasts st' = PasswordManager.toasts st ++ [t] /\
  PasswordManager.variant t = PasswordManager.Destructive.

(** A store in which every call is rejected, for concrete runs. *)
#[local] Instance offline : Firestore unit := {|
  getDocs := fun _ w => (Rejected, w);
  addDoc := fun _ _ w => (Rejected, w);
  updateDoc := fun _ _ _ w => (Rejected, w);
  deleteDoc := fun _ _ w => (Rejected, w)
|}.

(* ===================================================================== *)
(** ** Further parts of the components *)
(* ===================================================================== *)

Module JSString.

(** The order [arr.sort()] puts strings in when it is given no comparator:
    by code unit, here by byte, which is the same order on ASCII text. *)
Definition defaultCompare (a b : string) : Z :=
  match String_as_OT.cmp a b with
  | Lt => (-1)%Z
  | Eq => 0%Z
  | Gt => 1%Z
  end.

End JSString.

Module PasswordScreen.

(** [Array.from(new Set(passwords.map(p => p.appName))).sort()] (lines
    160-163): a set keeps the distinct values in the order they were added. *)
Definition platforms (passwords : list Password.t) : list string :=
  JSArray.sort JSString.defaultCompare (firstSeen (map Password.appName passwords)).

(** [password.tags?.join(', ') || ''] (line 130). *)
Definition tagsField (tags : option (list string)) : string :=
  match tags with
  | None => EmptyString
  | Some ts => if JS.truthy (JS.join ", " ts) then JS.join ", " ts else EmptyString
  end.

(** The values [form.reset] is given in [openEditDialog], as far as the
    schema keeps them. *)
Definition editValues (p : Password.t) : PasswordForm.t :=
  PasswordForm.mk (Password.appName p) (Password.username p) (Password.password p)
    (Password.status p) (Some (tagsField (Password.tags p)))
    (Some (JS.orEmpty (Password.customFields p))).

(** The values [form.reset] is given in [openAddDialog]. *)
Definition addValues : PasswordForm.t :=
  PasswordForm.mk "" "" "" "Active" (Some "") (Some []).

(** [openEditDialog] and [openAddDialog] (lines 128-140): the values the
    form now holds, and the state. *)
Definition openEditDialog (p : Password.t) (st : PasswordManager.State)
  : PasswordForm.t * PasswordManager.State :=
  (editValues p, PasswordManager.set_dialog true (Some p) st).

Definition openAddDialog (st : PasswordManager.State)
  : PasswordForm.t * PasswordManager.State :=
  (addValues, PasswordManager.set_dialog true None st).

(** A new value of [useAuth().user]. *)
Definition set_user (u : option PasswordManager.User) (st : PasswordManager.State)
  : PasswordManager.State :=
  PasswordManager.mkState u (PasswordManager.passwords st) (PasswordManager.isLoading st)
    (PasswordManager.searchQuery st) (PasswordManager.platformFilter st)
    (PasswordManager.isDialogOpen st) (PasswordManager.editingPassword st)
    (PasswordManager.visiblePasswords st) (PasswordManager.currentPage st)
    (PasswordManager.entriesPerPage st) (PasswordManager.formErrors st)
    (PasswordManager.toasts st) (PasswordManager.storeCalls st).

(** What happens to the component one step at a time: what the user and
    the session do, and the pieces a store action falls into when other
    steps come between its start and the arrival of the answer.
    [DialogOpenChange] is [onOpenChange={setIsDialogOpen}] (line 218): the
    Cancel button, the close button, the overlay and Escape set the flag and
    leave the record being edited as it is. *)
Inductive Event :=
| SearchInput (q : string)
| PlatformSelect (c : string)
| EntriesSelect (o : PasswordManager.EntriesOption)
| PreviousClick
| NextClick
| EyeClick (id : string)
| AddClick
| EditClick (p : Password.t)
| DialogOpenChange (open : bool)
| UserChange (u : option PasswordManager.User)
| ListingStarted
| ListingArrived (docs : list (string * PasswordDoc.t))
| ListingFailed
| Notified (t : PasswordManager.Toast).

Definition handle (e : Event) (st : PasswordManager.State) : PasswordManager.State :=
  match e with
  | SearchInput q => PasswordManager.setSearchQuery q st
  | PlatformSelect c => PasswordManager.setPlatformFilter c st
  | EntriesSelect o => PasswordManager.handleEntriesPerPageChange o st
  | PreviousClick => PasswordManager.clickPrevious st
  | NextClick => PasswordManager.clickNext st
  | EyeClick id => PasswordManager.toggleVisibility id st
  | AddClick => snd (openAddDialog st)
  | EditClick p => snd (openEditDialog p st)
  | DialogOpenChange open =>
      PasswordManager.set_dialog open (PasswordManager.editingPassword st) st
  | UserChange u => set_user u st
  | ListingStarted => PasswordManager.set_isLoading true st
  | ListingArrived docs =>
      PasswordManager.set_isLoading false
        (PasswordManager.setPasswords (map PasswordManager.fromDoc docs) st)
  | ListingFailed =>
      PasswordManager.set_isLoading false
        (PasswordManager.toast PasswordManager.fetchFailed st)
  | Notified t => PasswordManager.toast t st
  end.

(** The states the component can be in: mounted with the [useState]
    defaults, then any sequence of steps and of whole listings, submissions
    and deletions, over a store that may change in between. *)
Inductive reachable {W : Type} {FS : Firestore W} : W * PasswordManager.State -> Prop :=
| reach_mount (u : option PasswordManager.User) (w : W) :
    reachable (w, PasswordManager.initialState u)
| reach_event (e : Event) (w : W) (st : PasswordManager.State) :
    reachable (w, st) -> reachable (w, handle e st)
| reach_fetch (ws : W * PasswordManager.State) :
    reachable ws -> reachable (PasswordManager.fetchPasswords ws)
| reach_submit (v : PasswordForm.t) (ws : W * PasswordManager.State) :
    reachable ws -> reachable (PasswordManager.submit v ws)
| reach_delete (id : string) (ws : W * PasswordManager.State) :
    reachable ws -> reachable (PasswordManager.handleDelete id ws)
| reach_store (w w' : W) (st : PasswordManager.State) :
    reachable (w, st) -> reachable (w', st).

(** The path a store call goes to. *)
Definition callPath (c : StoreCall) : string :=
  match c with
  | CallGetDocs path => path
  | CallAddDoc path _ => path
  | CallUpdateDoc path _ _ => path
  | CallDeleteDoc path _ => path
  end.

End PasswordScreen.

(** [src/app/dashboard/layout.tsx], lines 75-90: which sidebar entry is
    marked active for a path. *)
Module DashboardLayout.

Definition dashboardActive (pathname : string) : bool :=
  String.eqb pathname "/dashboard".
Definition apiKeysActive (pathname : string) : bool :=
  JS.startsWith pathname "/dashboard/api-keys".
Definition passwordsActive (pathname : string) : bool :=
  JS.startsWith pathname "/dashboard/passwords".
Definition notesActive (pathname : string) : bool :=
  JS.startsWith pathname "/dashboard/notes".

Definition activeEntries (pathname : string) : list bool :=
  [dashboardActive pathname; apiKeysActive pathname;
   passwordsActive pathname; notesActive pathname].

End DashboardLayout.

(** The page is 1 or more and at most the page count, or nothing matches and
    the page is 0 or 1; the page size is one of the five. *)
Definition pagerInvariant (st : PasswordManager.State) : Prop :=
  (exists o, PasswordManager.entriesPerPage st = PasswordManager.entriesNumber o) /\
  ((PasswordManager.filteredPasswords st <> [] /\
    (1 <= PasswordManager.currentPage st <= PasswordManager.totalPages st)%Z) \/
   (PasswordManager.filteredPasswords st = [] /\
    (PasswordManager.currentPage st = 0%Z \/ PasswordManager.currentPage st = 1%Z))).

(** The page the table shows when the current page is [i]. *)
Definition pageAt (st : PasswordManager.State) (i : nat) : list Password.t :=
  PasswordManager.paginatedPasswords (PasswordManager.set_currentPage (Z.of_nat i) st).

(** A tag as the form stores it: not empty, without a comma, and with no
    white space at either end.  The white space is that of ASCII text, and
    the statements about clean tags are made for tags of ASCII text. *)
Definition cleanTag (t : string) : bool :=
  JS.truthy t && negb (JS.includes t ",") && String.eqb (JS.trim t) t.

(** The sum of the counts an object holds. *)
Definition totalCount (o : JSObject.t) : Z :=
  fold_right Z.add 0%Z (map snd o).

(** The store calls an action added to the log: at most two, none for a
    signed-out session, and each on the signed-in user's own collection. *)
Definition callsScoped (st st' : PasswordManager.State) : Prop :=
  exists calls,
    PasswordManager.storeCalls st' = PasswordManager.storeCalls st ++ calls /\
    (List.length calls <= 2)%nat /\
    match PasswordManager.user st with
    | Some u =>
        Forall (fun c => PasswordScreen.callPath c =
                         ("users/" ++ PasswordManager.uid u ++ "/passwords")%string) calls
    | None => calls = []
    end.

(** The call a valid submission starts with: an update of the record being
    edited, or a creation. *)
Definition mutationCall (u : PasswordManager.User) (st : PasswordManager.State)
    (v : PasswordForm.t) : StoreCall :=
  match PasswordManager.editingPassword st with
  | Some editing =>
      CallUpdateDoc (PasswordManager.passwordsPath u) (Password.id editing)
        (PasswordManager.dataToSave v)
  | None => CallAddDoc (PasswordManager.passwordsPath u) (PasswordManager.dataToSave v)
  end.

Definition isFulfilled {A : Type} (r : Settled A) : bool :=
  match r with Fulfilled _ => true | Rejected => false end.

(** Whether the store accepts that call. *)
Definition mutationFulfilled {W : Type} {FS : Firestore W} (w : W)
    (u : PasswordManager.User) (st : PasswordManager.State) (v : PasswordForm.t) : bool :=
  match PasswordManager.editingPassword st with
  | Some editing =>
      isFulfilled (fst (updateDoc (PasswordManager.passwordsPath u) (Password.id editing)
                          (PasswordManager.dataToSave v) w))
  | None =>
      isFulfilled (fst (addDoc (PasswordManager.passwordsPath u)
                          (PasswordManager.dataToSave v) w))
  end.

(** The store after that call. *)
Definition worldAfterMutation {W : Type} {FS : Firestore W} (w : W)
    (u : PasswordManager.User) (st : PasswordManager.State) (v : PasswordForm.t) : W :=
  match PasswordManager.editingPassword st with
  | Some editing =>
      snd (updateDoc (PasswordManager.passwordsPath u) (Password.id editing)
             (PasswordManager.dataToSave v) w)
  | None =>
      snd (addDoc (PasswordManager.passwordsPath u) (PasswordManager.dataToSave v) w)
  end.

(** What the screen holds once a change was accepted and the listing after
    it returned [docs]: the listing with the document ids, on page 1, not
    loading, the eye toggles as they were. *)
Definition showsListing (docs : list (string * PasswordDoc.t))
    (st st' : PasswordManager.State) : Prop :=
  PasswordManager.passwords st' = map PasswordManager.fromDoc docs /\
  map Password.id (PasswordManager.passwords st') = map fst docs /\
  PasswordManager.currentPage st' = 1%Z /\
  PasswordManager.isLoading st' = false /\
  PasswordManager.visiblePasswords st' = PasswordManager.visiblePasswords st.

(** What it is for [chart] to hold the five most frequent names of [l]:
    as many entries as there are distinct names, up to five, no name twice,
    in descending order of value, each a name of [l] with the number of its
    occurrences, and no name left out that occurs more often than one
    listed. *)
Definition isTopFive (l : list string) (chart : list Dashboard.Datum) : Prop :=
  List.length chart = Nat.min 5 (List.length (firstSeen l)) /\
  List.NoDup (map Dashboard.name chart) /\
  descending chart /\
  (forall d, In d chart ->
             In (Dashboard.name d) l /\
             Dashboard.value d = frequency l (Dashboard.name d)) /\
  (forall k d, In k l -> ~ In k (map Dashboard.name chart) -> In d chart ->
               (frequency l k <= Dashboard.value d)%Z).

(** A store that accepts every call and lists one document, for concrete
    runs. *)
Definition oneDocument : list (string * PasswordDoc.t) :=
  [("d1", PasswordDoc.mk "Gmail" "ann" "s3cret" "Active" (Some ["mail"]) (Some []))].

#[local] Instance online : Firestore bool := {|
  getDocs := fun _ w => (Fulfilled oneDocument, w);
  addDoc := fun _ _ w => (Fulfilled "d2", w);
  updateDoc := fun _ _ _ w => (Fulfilled tt, w);
  deleteDoc := fun _ _ w => (Fulfilled tt, w)
|}.

(* ===================================================================== *)
(** ** Facts about the string built-ins *)
(* ===================================================================== *)

Lemma startsWith_spec (s q : string) :
  JS.startsWith s q = true <-> exists post, s = (q ++ post)%string.
Proof.
  revert s. induction q as [|a q IH]; intros s; simpl.
  - split; [exists s; reflexivity | destruct s; reflexivity].
  - destruct s as [|b s]; simpl.
    + split; [discriminate | intros [post Hp]; discriminate].
    + rewrite andb_true_iff, IH. split.
      * intros [Hab [post ->]]. apply Ascii.eqb_eq in Hab. subst.
        exists post. reflexivity.
      * intros [post Hp]. injection Hp as -> ->. split.
        -- apply Ascii.eqb_refl.
        -- exists post. reflexivity.
Qed.

Lemma includes_spec (s q : string) :
  JS.includes s q = true <-> Substring q s.
Proof.
  unfold Substring. induction s as [|c s IH].
  - change (JS.includes EmptyString q) with (JS.startsWith EmptyString q || false).
    rewrite orb_false_r, startsWith_spec. split.
    + intros [post ->]. exists EmptyString, post. reflexivity.
    + intros [pre [post Hp]]. destruct pre; simpl in Hp.
      * exists post. exact Hp.
      * discriminate.
  - change (JS.includes (String c s) q)
      with (JS.startsWith (String c s) q || JS.includes s q).
    rewrite orb_true_iff, startsWith_spec, IH. split.
    + intros [[post ->] | [pre [post ->]]].
      * exists EmptyString, post. reflexivity.
      * exists (String c pre), post. reflexivity.
    + intros [pre [post Hp]]. destruct pre as [|c' pre]; simpl in Hp.
      * left. exists post. exact Hp.
      * right. injection Hp as -> ->. exists pre, post. reflexivity.
Qed.


Lemma append_String (c : ascii) (l t : string) :
  (String c l ++ t)%string = String c (l ++ t)%string.
Proof. reflexivity. Qed.

Lemma append_Empty (t : string) : (EmptyString ++ t)%string = t.
Proof. reflexivity. Qed.

Lemma append_nil_r (s : string) : (s ++ EmptyString)%string = s.
Proof.
  induction s as [|c s IH]; [reflexivity|]. rewrite append_String, IH. reflexivity.
Qed.

Lemma string_append_assoc (a b c : string) :
  ((a ++ b) ++ c)%string = (a ++ b ++ c)%string.
Proof.
  induction a as [|x a IH]; [reflexivity|].
  rewrite !append_String, IH. reflexivity.
Qed.

Lemma toLowerCase_app (a b : string) :
  JS.toLowerCase (a ++ b) = (JS.toLowerCase a ++ JS.toLowerCase b)%string.
Proof.
  induction a as [|x a IH]; [reflexivity|].
  rewrite append_String. cbn [JS.toLowerCase]. rewrite IH, append_String. reflexivity.
Qed.

Lemma Substring_trans (a b c : string) :
  Substring a b -> Substring b c -> Substring a c.
Proof.
  intros [pre [post ->]] [pre' [post' ->]].
  exists (pre' ++ pre)%string, (post ++ post')%string.
  rewrite !string_append_assoc. reflexivity.
Qed.

Lemma Substring_toLowerCase (a b : string) :
  Substring a b -> Substring (JS.toLowerCase a) (JS.toLowerCase b).
Proof.
  intros [pre [post ->]].
  exists (JS.toLowerCase pre), (JS.toLowerCase post).
  rewrite !toLowerCase_app. reflexivity.
Qed.

(** *** Letter case *)









(* ===================================================================== *)
(** ** Search and filtering *)
(* ===================================================================== *)

(** C1.  For every loaded list, query [Q] and category filter [C], a record
    is in the filtered list exactly when it is loaded, matches the search
    for [Q], and either [C] is "all" or its appName is [C]; with "all" the
    filtered list is the list of the records that match the search. *)
Theorem C1_filter_is_search_and_category :
  forall (passwords : list Password.t) (Q C : string),
    (forall p, In p (PasswordManager.filtered passwords Q C) <->
               In p passwords /\
               PasswordManager.searchMatch Q p = true /\
               (C = "all" \/ Password.appName p = C)) /\
    PasswordManager.filtered passwords Q "all" =
    List.filter (PasswordManager.searchMatch Q) passwords.
Proof.
  intros passwords Q C. split.
  - intros p. unfold PasswordManager.filtered, PasswordManager.platformMatch.
    rewrite filter_In, andb_true_iff, orb_true_iff, !String.eqb_eq.
    tauto.
  - unfold PasswordManager.filtered, PasswordManager.platformMatch.
    apply filter_ext. intros p. simpl. apply andb_true_r.
Qed.







(* ===================================================================== *)
(** ** Pagination *)
(* ===================================================================== *)

Lemma pageCount_div (len perPage : Z) :
  (0 < perPage)%Z ->
  PasswordManager.pageCount len perPage = (- ((- len) / perPage))%Z.
Proof.
  intros Hper. destruct perPage as [|p|p]; try lia.
  unfold PasswordManager.pageCount, Qceiling, Qfloor, Qdiv, Qmult, Qinv, Qopp, inject_Z.
  simpl. rewrite Z.mul_1_r. reflexivity.
Qed.

(** [pageCount len perPage] is the least [n] with [len <= n * perPage]. *)
Lemma pageCount_bounds (len perPage : Z) :
  (0 < perPage)%Z ->
  ((PasswordManager.pageCount len perPage - 1) * perPage < len
   <= PasswordManager.pageCount len perPage * perPage)%Z.
Proof.
  intros Hper. rewrite pageCount_div by assumption.
  pose proof (Z.div_mod (- len) perPage ltac:(lia)) as Hdm.
  pose proof (Z.mod_pos_bound (- len) perPage Hper) as Hmod.
  nia.
Qed.

(** 120 records at 50 per page make 3 pages, the last one holding the
    records at positions 101 to 120. *)
Example pageCount_120_by_50 : PasswordManager.pageCount 120 50 = 3%Z.
Proof. reflexivity. Qed.

Example slice_last_page_of_120 :
  JS.slice (seq 1 120) ((3 - 1) * 50) ((3 - 1) * 50 + 50) = seq 101 20.
Proof. reflexivity. Qed.

Lemma entriesNumber_pos (o : PasswordManager.EntriesOption) :
  (0 < PasswordManager.entriesNumber o)%Z.
Proof. destruct o; reflexivity. Qed.

Lemma totalPages_bounds (st : PasswordManager.State) :
  (0 < PasswordManager.entriesPerPage st)%Z ->
  ((PasswordManager.totalPages st - 1) * PasswordManager.entriesPerPage st
   < Z.of_nat (List.length (PasswordManager.filteredPasswords st))
   <= PasswordManager.totalPages st * PasswordManager.entriesPerPage st)%Z.
Proof. intros Hper. apply pageCount_bounds. exact Hper. Qed.

Lemma totalPages_positive_iff (st : PasswordManager.State) :
  (0 < PasswordManager.entriesPerPage st)%Z ->
  (1 <= PasswordManager.totalPages st)%Z <-> PasswordManager.filteredPasswords st <> [].
Proof.
  intros Hper. pose proof (totalPages_bounds st Hper) as Hb.
  destruct (PasswordManager.filteredPasswords st) as [|p l] eqn:Hf; simpl List.length in Hb.
  - split; [intros Hone; nia | congruence].
  - split; [discriminate | intros _; nia].
Qed.

Lemma totalPages_empty (st : PasswordManager.State) :
  (0 < PasswordManager.entriesPerPage st)%Z ->
  PasswordManager.filteredPasswords st = [] ->
  PasswordManager.totalPages st = 0%Z.
Proof.
  intros Hper Hempty. pose proof (totalPages_bounds st Hper) as Hb.
  rewrite Hempty in Hb. simpl in Hb. nia.
Qed.

(** C3, as amended.  For every filtered list and every allowed page size the
    page count is the ceiling of filteredCount / pageSize; it is at least 1
    exactly when the filtered list is not empty, and for an empty filtered
    list it is 0 and the indicator reads "Page 0 of 0". *)
Theorem C3_page_count_is_ceiling :
  forall (st : PasswordManager.State) (o : PasswordManager.EntriesOption),
    PasswordManager.entriesPerPage st = PasswordManager.entriesNumber o ->
    ((PasswordManager.totalPages st - 1) * PasswordManager.entriesPerPage st
     < Z.of_nat (List.length (PasswordManager.filteredPasswords st))
     <= PasswordManager.totalPages st * PasswordManager.entriesPerPage st)%Z /\
    ((1 <= PasswordManager.totalPages st)%Z <->
     PasswordManager.filteredPasswords st <> []) /\
    (PasswordManager.filteredPasswords st = [] ->
     PasswordManager.totalPages st = 0%Z /\
     PasswordManager.pageIndicator st = "Page 0 of 0").
Proof.
  intros st o Hper.
  assert (Hpos : (0 < PasswordManager.entriesPerPage st)%Z)
    by (rewrite Hper; apply entriesNumber_pos).
  split; [|split].
  - apply totalPages_bounds. exact Hpos.
  - apply totalPages_positive_iff. exact Hpos.
  - intros Hempty. pose proof (totalPages_empty st Hpos Hempty) as Hzero.
    split; [exact Hzero|].
    unfold PasswordManager.pageIndicator. rewrite Hzero. reflexivity.
Qed.

Lemma C3_page_count_witness :
  PasswordManager.totalPages (PasswordManager.initialState None) = 0%Z /\
  PasswordManager.pageIndicator (PasswordManager.initialState None) = "Page 0 of 0".
Proof.
  apply (C3_page_count_is_ceiling (PasswordManager.initialState None)
           PasswordManager.Show50); reflexivity.
Defined.

(** C3 as written fails: with nothing loaded the page count is 0, not at
    least 1. *)
Lemma C3_minimum_one_counterexample :
  ~ (1 <= PasswordManager.totalPages (PasswordManager.initialState None))%Z.
Proof. vm_compute. intros H. apply H. reflexivity. Qed.

Lemma currentPage_memoRerun (st : PasswordManager.State) :
  PasswordManager.currentPage (PasswordManager.memoRerun st) = 1%Z.
Proof. reflexivity. Qed.

Lemma entriesPerPage_memoRerun (st : PasswordManager.State) :
  PasswordManager.entriesPerPage (PasswordManager.memoRerun st) =
  PasswordManager.entriesPerPage st.
Proof. reflexivity. Qed.

(** At page 1 the page is within [1, pageCount] exactly when there is
    something to show. *)
Lemma page_one_in_range (st : PasswordManager.State) :
  (0 < PasswordManager.entriesPerPage st)%Z ->
  PasswordManager.currentPage st = 1%Z ->
  (1 <= PasswordManager.currentPage st <= PasswordManager.totalPages st)%Z <->
  PasswordManager.filteredPasswords st <> [].
Proof.
  intros Hper Hone. rewrite <- (totalPages_positive_iff st Hper), Hone. lia.
Qed.

Lemma pageSettled_intro (st : PasswordManager.State) :
  (0 < PasswordManager.entriesPerPage st)%Z ->
  PasswordManager.currentPage st = 1%Z ->
  pageSettled st.
Proof.
  intros Hper Hone. split; [exact Hone|].
  apply page_one_in_range; assumption.
Qed.

(** C4, as amended.  With an allowed page size in force, a change of the
    search query, of the category filter, of the loaded list or of the page
    size sets the current page to 1; the page then lies in [1, pageCount]
    exactly when the filtered list is not empty. *)
Theorem C4_changes_reset_page :
  forall (st : PasswordManager.State) (o : PasswordManager.EntriesOption),
    PasswordManager.entriesPerPage st = PasswordManager.entriesNumber o ->
    (forall q, q <> PasswordManager.searchQuery st ->
               pageSettled (PasswordManager.setSearchQuery q st)) /\
    (forall c, c <> PasswordManager.platformFilter st ->
               pageSettled (PasswordManager.setPlatformFilter c st)) /\
    (forall l, pageSettled (PasswordManager.setPasswords l st)) /\
    (forall o', pageSettled (PasswordManager.handleEntriesPerPageChange o' st)).
Proof.
  intros st o Hper.
  assert (Hpos : (0 < PasswordManager.entriesPerPage st)%Z)
    by (rewrite Hper; apply entriesNumber_pos).
  split; [|split; [|split]].
  - intros q Hq. unfold PasswordManager.setSearchQuery.
    destruct (String.eqb_spec q (PasswordManager.searchQuery st)) as [Heq|_].
    + contradiction.
    + apply pageSettled_intro; [exact Hpos | reflexivity].
  - intros c Hc. unfold PasswordManager.setPlatformFilter.
    destruct (String.eqb_spec c (PasswordManager.platformFilter st)) as [Heq|_].
    + contradiction.
    + apply pageSettled_intro; [exact Hpos | reflexivity].
  - intros l. apply pageSettled_intro; [exact Hpos | reflexivity].
  - intros o'. apply pageSettled_intro; [apply entriesNumber_pos | reflexivity].
Qed.

Lemma C4_changes_reset_witness :
  pageSettled (PasswordManager.setSearchQuery "mail" (PasswordManager.initialState None)) /\
  pageSettled (PasswordManager.handleEntriesPerPageChange PasswordManager.Show10
                 (PasswordManager.initialState None)).
Proof.
  pose proof (C4_changes_reset_page (PasswordManager.initialState None)
                PasswordManager.Show50 eq_refl) as [Hsearch [_ [_ Hsize]]].
  split.
  - apply Hsearch. discriminate.
  - apply Hsize.
Defined.

(** C4 as written fails: after a change of the query over an empty list the
    current page is 1 and the page count is 0, so the page is outside
    [1, pageCount]. *)
Lemma C4_page_in_range_counterexample :
  let st := PasswordManager.setSearchQuery "mail" (PasswordManager.initialState None) in
  ~ (1 <= PasswordManager.currentPage st <= PasswordManager.totalPages st)%Z.
Proof. vm_compute. intros [_ H]. apply H. reflexivity. Qed.

(** Where the buttons do nothing: [previous] at page 1, and [next] when the
    page is the page count, where the button is disabled and its updater
    would return the same page. *)
Lemma navigation_noop_at_exact_boundary :
  forall st : PasswordManager.State,
    (PasswordManager.currentPage st = 1%Z ->
     PasswordManager.clickPrevious st = st /\
     PasswordManager.previousDisabled st = true /\
     PasswordManager.previousPage (PasswordManager.currentPage st) =
     PasswordManager.currentPage st) /\
    (PasswordManager.currentPage st = PasswordManager.totalPages st ->
     PasswordManager.clickNext st = st /\
     PasswordManager.nextDisabled st = true /\
     PasswordManager.nextPage (PasswordManager.totalPages st)
       (PasswordManager.currentPage st) = PasswordManager.currentPage st).
Proof.
  intros st. split.
  - intros Hone.
    unfold PasswordManager.clickPrevious, PasswordManager.previousDisabled,
      PasswordManager.previousPage.
    rewrite Hone. repeat split; reflexivity.
  - intros Hlast.
    unfold PasswordManager.clickNext, PasswordManager.nextDisabled,
      PasswordManager.nextPage.
    rewrite <- Hlast, Z.eqb_refl. repeat split; lia.
Qed.

(** Right after a reset over an empty list the page is 1 and the page count
    0: [next] is enabled there and moves the page to 0. *)
Lemma next_on_empty_list_after_reset :
  PasswordManager.currentPage
    (PasswordManager.clickNext (PasswordManager.initialState None)) = 0%Z.
Proof. reflexivity. Qed.

(** C5 fails over an empty filtered list.  There the page count is 0, and
    the page is 1 after the mount and after every change of the query, the
    filter, the list or the page size.  [previous] does nothing, as the
    claim says; but the test [currentPage === totalPages] compares 1 with 0
    and leaves [next] enabled, and a click sets the page to
    [Math.min(1 + 1, 0)], which is 0: [next] does not leave the page as it
    is.  Over a list that is not empty [next] does nothing on the last
    page. *)
Theorem C5_next_changes_page_over_empty_list :
  forall st : PasswordManager.State,
    (exists o, PasswordManager.entriesPerPage st = PasswordManager.entriesNumber o) ->
    PasswordManager.filteredPasswords st = [] ->
    PasswordManager.currentPage st = 1%Z ->
    PasswordManager.totalPages st = 0%Z /\
    PasswordManager.clickPrevious st = st /\
    PasswordManager.nextDisabled st = false /\
    PasswordManager.nextPage (PasswordManager.totalPages st)
      (PasswordManager.currentPage st) = 0%Z /\
    PasswordManager.currentPage (PasswordManager.clickNext st) = 0%Z /\
    PasswordManager.clickNext st <> st.
Proof.
  intros st [o Hper] Hnone Hone.
  assert (Hpos : (0 < PasswordManager.entriesPerPage st)%Z).
  { rewrite Hper. apply entriesNumber_pos. }
  pose proof (totalPages_empty st Hpos Hnone) as Hzero.
  assert (Hnext : PasswordManager.currentPage (PasswordManager.clickNext st) = 0%Z).
  { unfold PasswordManager.clickNext, PasswordManager.nextDisabled,
      PasswordManager.nextPage.
    rewrite Hzero, Hone. reflexivity. }
  split; [exact Hzero|]. split; [|split; [|split; [|split]]].
  - unfold PasswordManager.clickPrevious, PasswordManager.previousDisabled.
    rewrite Hone. reflexivity.
  - unfold PasswordManager.nextDisabled. rewrite Hzero, Hone. reflexivity.
  - rewrite Hzero, Hone. reflexivity.
  - exact Hnext.
  - intros Hsame. rewrite Hsame, Hone in Hnext. discriminate.
Qed.

(** The component as it is mounted: no record loaded, page 1 of 0. *)
Lemma C5_next_changes_page_witness :
  let st := PasswordManager.initialState None in
  PasswordManager.filteredPasswords st = [] /\
  PasswordManager.currentPage st = 1%Z /\
  PasswordManager.totalPages st = 0%Z /\
  PasswordManager.nextDisabled st = false /\
  PasswordManager.currentPage (PasswordManager.clickNext st) = 0%Z.
Proof.
  intros st.
  destruct (C5_next_changes_page_over_empty_list st
              (ex_intro _ PasswordManager.Show50 eq_refl) eq_refl eq_refl)
    as [Hzero [_ [Henabled [_ [Hnext _]]]]].
  split; [reflexivity|]. split; [reflexivity|]. split; [exact Hzero|].
  split; [exact Henabled | exact Hnext].
Defined.

(* ===================================================================== *)
(** ** The tags input *)
(* ===================================================================== *)

Lemma split_comma_nonempty (s : string) : JS.split_comma s <> [].
Proof.
  destruct s as [|c r]; simpl; [discriminate|].
  destruct (Ascii.eqb c ","%char); [discriminate|].
  destruct (JS.split_comma r); discriminate.
Qed.

Lemma join_cons_char (c : ascii) (seg : string) (segs : list string) :
  JS.join "," (String c seg :: segs) = String c (JS.join "," (seg :: segs)).
Proof. destruct segs; reflexivity. Qed.

(** Joining the segments with commas gives the input back. *)
Lemma split_comma_join (s : string) : JS.join "," (JS.split_comma s) = s.
Proof.
  induction s as [|c r IH]; [reflexivity|].
  simpl JS.split_comma.
  destruct (Ascii.eqb_spec c ","%char) as [-> | Hc].
  - pose proof (split_comma_nonempty r) as Hne.
    destruct (JS.split_comma r) as [|seg segs]; [contradiction|].
    change (JS.join "," (EmptyString :: seg :: segs))
      with (String ","%char (JS.join "," (seg :: segs))).
    rewrite IH. reflexivity.
  - pose proof (split_comma_nonempty r) as Hne.
    destruct (JS.split_comma r) as [|seg segs]; [contradiction|].
    rewrite join_cons_char, IH. reflexivity.
Qed.

Lemma startsWith_empty (s : string) : JS.startsWith s EmptyString = true.
Proof. destruct s; reflexivity. Qed.

Lemma includes_comma_cons (c : ascii) (seg : string) :
  JS.includes (String c seg) "," = Ascii.eqb ","%char c || JS.includes seg ",".
Proof.
  change (JS.includes (String c seg) ",")
    with (JS.startsWith (String c seg) "," || JS.includes seg ",").
  change (JS.startsWith (String c seg) ",")
    with (Ascii.eqb ","%char c && JS.startsWith seg EmptyString).
  rewrite startsWith_empty, andb_true_r. reflexivity.
Qed.

(** No segment holds a comma. *)
Lemma split_comma_no_comma (s : string) :
  Forall (fun seg => JS.includes seg "," = false) (JS.split_comma s).
Proof.
  induction s as [|c r IH]; simpl JS.split_comma.
  - constructor; [reflexivity | constructor].
  - destruct (Ascii.eqb_spec c ","%char) as [-> | Hc].
    + constructor; [reflexivity | exact IH].
    + assert (Hcomma : Ascii.eqb ","%char c = false).
      { apply Ascii.eqb_neq. congruence. }
      destruct (JS.split_comma r) as [|seg segs].
      * constructor; [|constructor].
        rewrite includes_comma_cons, Hcomma. reflexivity.
      * inversion IH as [|? ? Hseg Hsegs]; subst. constructor; [|exact Hsegs].
        rewrite includes_comma_cons, Hcomma, Hseg. reflexivity.
Qed.

Lemma trimStart_decompose (s : string) :
  exists l, s = (l ++ JS.trimStart s)%string /\ allWhiteSpace l = true.
Proof.
  induction s as [|c r [l [Hl Hw]]].
  - exists EmptyString. split; reflexivity.
  - cbn [JS.trimStart]. destruct (JS.isWhiteSpace c) eqn:Hc.
    + exists (String c l). rewrite append_String, <- Hl.
      cbn [allWhiteSpace]. rewrite Hc, Hw. split; reflexivity.
    + exists EmptyString. split; reflexivity.
Qed.

Lemma trimEnd_decompose (s : string) :
  exists r, s = (JS.trimEnd s ++ r)%string /\ allWhiteSpace r = true.
Proof.
  induction s as [|c s [r [Hr Hw]]].
  - exists EmptyString. split; reflexivity.
  - cbn [JS.trimEnd]. destruct (JS.trimEnd s) as [|c' t] eqn:Ht.
    + rewrite append_Empty in Hr. subst r.
      destruct (JS.isWhiteSpace c) eqn:Hc.
      * exists (String c s). rewrite append_Empty.
        cbn [allWhiteSpace]. rewrite Hc, Hw. split; reflexivity.
      * exists s. split; [reflexivity | exact Hw].
    + exists r. rewrite append_String, <- Hr. split; [reflexivity | exact Hw].
Qed.

(** [trim] takes white space, and nothing else, off both ends. *)
Lemma trim_decompose (s : string) :
  exists l r, s = (l ++ JS.trim s ++ r)%string /\
              allWhiteSpace l = true /\ allWhiteSpace r = true.
Proof.
  destruct (trimStart_decompose s) as [l [Hl Hwl]].
  destruct (trimEnd_decompose (JS.trimStart s)) as [r [Hr Hwr]].
  exists l, r. unfold JS.trim. rewrite <- Hr, <- Hl. auto.
Qed.

Lemma trimStart_head (s : string) (c : ascii) (r : string) :
  JS.trimStart s = String c r -> JS.isWhiteSpace c = false.
Proof.
  induction s as [|a s IH]; simpl; [discriminate|].
  destruct (JS.isWhiteSpace a) eqn:Ha; [exact IH|].
  intros Heq. injection Heq as -> ->. exact Ha.
Qed.

Lemma trimEnd_head (c : ascii) (s : string) :
  JS.isWhiteSpace c = false -> exists t, JS.trimEnd (String c s) = String c t.
Proof.
  intros Hc. simpl. destruct (JS.trimEnd s) as [|c' t].
  - rewrite Hc. exists EmptyString. reflexivity.
  - exists (String c' t). reflexivity.
Qed.

Lemma trimEnd_last (s t : string) (c : ascii) :
  JS.trimEnd s = (t ++ String c EmptyString)%string -> JS.isWhiteSpace c = false.
Proof.
  revert t. induction s as [|a s IH]; intros t; simpl.
  - destruct t; discriminate.
  - destruct (JS.trimEnd s) as [|c' u] eqn:Hu.
    + destruct (JS.isWhiteSpace a) eqn:Ha.
      * destruct t; discriminate.
      * destruct t as [|b t]; simpl; intros Heq.
        -- injection Heq as ->. exact Ha.
        -- injection Heq as _ Heq. destruct t; discriminate.
    + destruct t as [|b t]; simpl; intros Heq.
      * discriminate.
      * injection Heq as _ Heq. apply (IH t). exact Heq.
Qed.

(** The trimmed string neither starts nor ends with white space. *)
Lemma trim_tight (s : string) :
  (forall c r, JS.trim s = String c r -> JS.isWhiteSpace c = false) /\
  (forall t c, JS.trim s = (t ++ String c EmptyString)%string ->
               JS.isWhiteSpace c = false).
Proof.
  split.
  - intros c r. unfold JS.trim.
    destruct (JS.trimStart s) as [|a u] eqn:Hu; [discriminate|].
    pose proof (trimStart_head s a u Hu) as Ha.
    destruct (trimEnd_head a u Ha) as [t Ht]. rewrite Ht.
    intros Heq. injection Heq as -> _. exact Ha.
  - intros t c. unfold JS.trim. apply trimEnd_last.
Qed.


Lemma trimStart_tight (s : string) :
  (forall c r, s = String c r -> JS.isWhiteSpace c = false) -> JS.trimStart s = s.
Proof.
  intros Hhead. destruct s as [|c r]; [reflexivity|].
  cbn [JS.trimStart]. rewrite (Hhead c r eq_refl). reflexivity.
Qed.

Lemma trimEnd_tight (s : string) :
  (forall t c, s = (t ++ String c EmptyString)%string -> JS.isWhiteSpace c = false) ->
  JS.trimEnd s = s.
Proof.
  induction s as [|c r IH]; intros Hlast; [reflexivity|].
  cbn [JS.trimEnd]. rewrite IH.
  - destruct r as [|c' r']; [|reflexivity].
    rewrite (Hlast EmptyString c eq_refl). reflexivity.
  - intros t c' Hr. apply (Hlast (String c t) c'). rewrite Hr. reflexivity.
Qed.

Lemma no_comma_cons (c : ascii) (s : string) :
  JS.includes (String c s) "," = false <->
  Ascii.eqb ","%char c = false /\ JS.includes s "," = false.
Proof. rewrite includes_comma_cons. apply orb_false_iff. Qed.

Lemma split_comma_whole (s : string) :
  JS.includes s "," = false -> JS.split_comma s = [s].
Proof.
  induction s as [|c s IH]; intros Hs; [reflexivity|].
  apply no_comma_cons in Hs. destruct Hs as [Hc Hs].
  cbn [JS.split_comma].
  replace (Ascii.eqb c ","%char) with false
    by (symmetry; rewrite Ascii.eqb_sym; exact Hc).
  rewrite (IH Hs). reflexivity.
Qed.

Lemma split_comma_at_comma (s r : string) :
  JS.includes s "," = false ->
  JS.split_comma (s ++ String ","%char r) = s :: JS.split_comma r.
Proof.
  induction s as [|c s IH]; intros Hs.
  - rewrite append_Empty. cbn [JS.split_comma]. rewrite Ascii.eqb_refl. reflexivity.
  - apply no_comma_cons in Hs. destruct Hs as [Hc Hs].
    rewrite append_String. cbn [JS.split_comma].
    replace (Ascii.eqb c ","%char) with false
      by (symmetry; rewrite Ascii.eqb_sym; exact Hc).
    rewrite (IH Hs). reflexivity.
Qed.

(** *** The words of section 4.4 and the built-ins *)
















Example tagsArray_example :
  tagsArray (Some " work , personal,, finance ,  ") = ["work"; "personal"; "finance"].
Proof. reflexivity. Qed.



(* ===================================================================== *)
(** ** Validation *)
(* ===================================================================== *)

Lemma string_min1_nil (msg : string) (p : list Zod.PathSeg) (v : string) :
  Zod.string_min1 msg p v = [] <-> v <> EmptyString.
Proof.
  unfold Zod.string_min1. destruct v as [|c r]; simpl.
  - split; [discriminate | congruence].
  - split; [discriminate | reflexivity].
Qed.

Lemma enum_status_nil (p : list Zod.PathSeg) (v : string) :
  Zod.enum_status p v = [] <-> statusValid v.
Proof.
  unfold Zod.enum_status, statusValid.
  destruct (String.eqb_spec v "Active") as [-> | Ha]; simpl.
  - split; auto.
  - destruct (String.eqb_spec v "Inactive") as [-> | Hi].
    + split; auto.
    + split; [discriminate | intros [? | ?]; contradiction].
Qed.

Lemma customFieldsFrom_nil (p : list Zod.PathSeg) (i : nat) (fs : list CustomField) :
  Zod.customFieldsFrom p i fs = [] <->
  Forall (fun f => label f <> EmptyString /\ value f <> EmptyString) fs.
Proof.
  revert i. induction fs as [|f fs IH]; intros i; simpl.
  - split; [constructor | reflexivity].
  - unfold Zod.customField.
    rewrite !app_nil, !string_min1_nil, IH, Forall_cons_iff. tauto.
Qed.

Lemma customFields_optional_nil (p : list Zod.PathSeg) (v : option (list CustomField)) :
  Zod.customFields_optional p v = [] <-> customFieldsValid v.
Proof.
  unfold customFieldsValid. destruct v as [fs|]; simpl.
  - apply customFieldsFrom_nil.
  - split; [constructor | reflexivity].
Qed.

Lemma passwordSchema_valid (v : PasswordForm.t) :
  passwordSchema v = [] <-> passwordValid v.
Proof.
  unfold passwordSchema, passwordValid.
  rewrite !app_nil, !string_min1_nil, enum_status_nil, customFields_optional_nil.
  tauto.
Qed.

Lemma apiKeySchema_valid (v : ApiKeyForm.t) :
  apiKeySchema v = [] <-> apiKeyValid v.
Proof.
  unfold apiKeySchema, apiKeyValid.
  rewrite !app_nil, !string_min1_nil, enum_status_nil, customFields_optional_nil.
  tauto.
Qed.

Lemma noteSchema_valid (v : NoteForm.t) :
  noteSchema v = [] <-> noteValid v.
Proof.
  unfold noteSchema, noteValid.
  rewrite !app_nil, !string_min1_nil, customFields_optional_nil.
  tauto.
Qed.

Lemma string_min1_keyed (fields : list string) (msg k : string) (v : string) :
  In k fields -> Forall (keyedBy fields) (Zod.string_min1 msg [Zod.Key k] v).
Proof.
  intros Hin. unfold Zod.string_min1.
  destruct (String.length v <? 1)%nat; constructor; [|constructor].
  exists k, []. split; [reflexivity | exact Hin].
Qed.

Lemma enum_status_keyed (fields : list string) (k : string) (v : string) :
  In k fields -> Forall (keyedBy fields) (Zod.enum_status [Zod.Key k] v).
Proof.
  intros Hin. unfold Zod.enum_status.
  destruct (String.eqb v "Active" || String.eqb v "Inactive"); constructor; [|constructor].
  exists k, []. split; [reflexivity | exact Hin].
Qed.

Lemma customFields_keyed (fields : list string) (k : string)
    (v : option (list CustomField)) :
  In k fields -> Forall (keyedBy fields) (Zod.customFields_optional [Zod.Key k] v).
Proof.
  intros Hin. destruct v as [fs|]; simpl; [|constructor].
  generalize 0%nat. induction fs as [|f fs IH]; intros i; simpl; [constructor|].
  unfold Zod.customField, Zod.string_min1.
  repeat apply Forall_app_2; try apply IH.
  - destruct (String.length (label f) <? 1)%nat; constructor; [|constructor].
    exists k, [Zod.Index i; Zod.Key "label"]. split; [reflexivity | exact Hin].
  - destruct (String.length (value f) <? 1)%nat; constructor; [|constructor].
    exists k, [Zod.Index i; Zod.Key "value"]. split; [reflexivity | exact Hin].
Qed.

Lemma passwordSchema_keyed (v : PasswordForm.t) :
  Forall (keyedBy ["appName"; "username"; "password"; "status"; "customFields"])
    (passwordSchema v).
Proof.
  unfold passwordSchema.
  repeat apply Forall_app_2;
    first [apply string_min1_keyed | apply enum_status_keyed | apply customFields_keyed];
    simpl; tauto.
Qed.

(** C7.  For each kind, the schema reports no issue exactly when the
    required strings are non-empty, the status (of a key or a password) is
    Active or Inactive, and every custom field present has a non-empty label
    and value; when the password schema reports issues, the form holds them,
    each keyed by a field of the form, and the submission ends there: the
    store is untouched and no store call is made. *)
Theorem C7_validation_gates_the_store :
  (forall v, passwordSchema v = [] <-> passwordValid v) /\
  (forall v, apiKeySchema v = [] <-> apiKeyValid v) /\
  (forall v, noteSchema v = [] <-> noteValid v) /\
  (forall (W : Type) (FS : Firestore W) (w : W) (st : PasswordManager.State)
          (v : PasswordForm.t),
      ~ passwordValid v ->
      PasswordManager.submit v (w, st) =
        (w, PasswordManager.set_formErrors (passwordSchema v) st) /\
      passwordSchema v <> [] /\
      Forall (keyedBy ["appName"; "username"; "password"; "status"; "customFields"])
        (passwordSchema v) /\
      PasswordManager.storeCalls (snd (PasswordManager.submit v (w, st))) =
        PasswordManager.storeCalls st /\
      PasswordManager.passwords (snd (PasswordManager.submit v (w, st))) =
        PasswordManager.passwords st).
Proof.
  split; [exact passwordSchema_valid|].
  split; [exact apiKeySchema_valid|].
  split; [exact noteSchema_valid|].
  intros W FS w st v Hinvalid.
  assert (Hissues : passwordSchema v <> []).
  { intros Hnil. apply Hinvalid, passwordSchema_valid, Hnil. }
  assert (Hsubmit : PasswordManager.submit v (w, st) =
                    (w, PasswordManager.set_formErrors (passwordSchema v) st)).
  { unfold PasswordManager.submit.
    destruct (passwordSchema v) as [|i rest]; [contradiction | reflexivity]. }
  rewrite Hsubmit. repeat split; try assumption.
  apply passwordSchema_keyed.
Qed.

(** An empty username and a custom field without a value, submitted by a
    signed-in user. *)
Lemma C7_validation_witness :
  let v := PasswordForm.mk "Gmail" "" "s3cret" "Active" (Some "mail")
             (Some [mkCustomField "pin" ""]) in
  let st := PasswordManager.initialState (Some (PasswordManager.mkUser "u1")) in
  PasswordManager.submit v (tt, st) =
  (tt, PasswordManager.set_formErrors
         [Zod.mkIssue [Zod.Key "username"] (Zod.Custom "Username/Email is required");
          Zod.mkIssue [Zod.Key "customFields"; Zod.Index 0; Zod.Key "value"]
            (Zod.Custom "Value is required")] st).
Proof.
  intros v st.
  destruct C7_validation_gates_the_store as [_ [_ [_ Hgate]]].
  destruct (Hgate unit offline tt st v) as [Hsubmit _].
  - intros [_ [Huser _]]. apply Huser. reflexivity.
  - exact Hsubmit.
Defined.

(* ===================================================================== *)
(** ** Store failures *)
(* ===================================================================== *)

Section StoreFailures.
Context {W : Type} {FS : Firestore W}.
Variables (w : W) (st : PasswordManager.State) (u : PasswordManager.User).
Hypothesis signedIn : PasswordManager.user st = Some u.

Lemma fetch_rejected (w' : W) :
  getDocs (PasswordManager.passwordsPath u) w = (Rejected, w') ->
  PasswordManager.fetchPasswords (w, st) =
  (w', PasswordManager.set_isLoading false
         (PasswordManager.toast PasswordManager.fetchFailed
            (PasswordManager.logCall
               (CallGetDocs (PasswordManager.passwordsPath u))
               (PasswordManager.set_isLoading true st)))).
Proof.
  intros Hget. unfold PasswordManager.fetchPasswords.
  rewrite signedIn, Hget. reflexivity.
Qed.

Lemma add_rejected (values : PasswordForm.t) (w' : W) :
  PasswordManager.editingPassword st = None ->
  addDoc (PasswordManager.passwordsPath u) (PasswordManager.dataToSave values) w
    = (Rejected, w') ->
  PasswordManager.handleFormSubmit values (w, st) =
  (w', PasswordManager.toast PasswordManager.saveFailed
         (PasswordManager.logCall
            (CallAddDoc (PasswordManager.passwordsPath u)
               (PasswordManager.dataToSave values)) st)).
Proof.
  intros Hnew Hadd. unfold PasswordManager.handleFormSubmit.
  rewrite signedIn, Hnew, Hadd. reflexivity.
Qed.

Lemma update_rejected (values : PasswordForm.t) (editing : Password.t) (w' : W) :
  PasswordManager.editingPassword st = Some editing ->
  updateDoc (PasswordManager.passwordsPath u) (Password.id editing)
    (PasswordManager.dataToSave values) w = (Rejected, w') ->
  PasswordManager.handleFormSubmit values (w, st) =
  (w', PasswordManager.toast PasswordManager.saveFailed
         (PasswordManager.logCall
            (CallUpdateDoc (PasswordManager.passwordsPath u) (Password.id editing)
               (PasswordManager.dataToSave values)) st)).
Proof.
  intros Hedit Hupd. unfold PasswordManager.handleFormSubmit.
  rewrite signedIn, Hedit, Hupd. reflexivity.
Qed.

Lemma delete_rejected (id : string) (w' : W) :
  deleteDoc (PasswordManager.passwordsPath u) id w = (Rejected, w') ->
  PasswordManager.handleDelete id (w, st) =
  (w', PasswordManager.toast PasswordManager.deleteFailed
         (PasswordManager.logCall
            (CallDeleteDoc (PasswordManager.passwordsPath u) id) st)).
Proof.
  intros Hdel. unfold PasswordManager.handleDelete.
  rewrite signedIn, Hdel. reflexivity.
Qed.

(** A creation that succeeds followed by a listing that is rejected: the
    list stays, both toasts show, and the dialog closes. *)
Lemma add_fulfilled_list_rejected (values : PasswordForm.t) (id : string) (w' w'' : W) :
  PasswordManager.editingPassword st = None ->
  addDoc (PasswordManager.passwordsPath u) (PasswordManager.dataToSave values) w
    = (Fulfilled id, w') ->
  getDocs (PasswordManager.passwordsPath u) w' = (Rejected, w'') ->
  let st' := snd (PasswordManager.handleFormSubmit values (w, st)) in
  PasswordManager.passwords st' = PasswordManager.passwords st /\
  PasswordManager.toasts st' =
    PasswordManager.toasts st ++ [PasswordManager.added; PasswordManager.fetchFailed] /\
  PasswordManager.isDialogOpen st' = false.
Proof.
  intros Hnew Hadd Hget. unfold PasswordManager.handleFormSubmit.
  rewrite signedIn, Hnew, Hadd. unfold PasswordManager.fetchPasswords.
  cbn [PasswordManager.user PasswordManager.toast PasswordManager.logCall].
  rewrite signedIn, Hget. cbn. rewrite <- app_assoc. auto.
Qed.

End StoreFailures.

Lemma failureOnly_toast_logCall (t : PasswordManager.Toast) (c : StoreCall)
    (st : PasswordManager.State) :
  PasswordManager.variant t = PasswordManager.Destructive ->
  failureOnly t st (PasswordManager.toast t (PasswordManager.logCall c st)).
Proof.
  intros Hvariant. unfold failureOnly. destruct st. repeat split; try reflexivity.
  exact Hvariant.
Qed.

Lemma failureOnly_fetch (c : StoreCall) (st : PasswordManager.State) :
  failureOnly PasswordManager.fetchFailed st
    (PasswordManager.set_isLoading false
       (PasswordManager.toast PasswordManager.fetchFailed
          (PasswordManager.logCall c (PasswordManager.set_isLoading true st)))).
Proof.
  unfold failureOnly. destruct st. repeat split; reflexivity.
Qed.

(** C8.  For a signed-in user, when the listing, the creation, the update or
    the deletion is rejected by the store, the loaded list, the filters, the
    pager and the rows shown are what they were before the operation, and
    the failure shows as one destructive toast; after a rejected listing the
    loading flag is off. *)
Theorem C8_store_failure_keeps_list :
  forall (W : Type) (FS : Firestore W) (w : W) (st : PasswordManager.State)
         (u : PasswordManager.User),
    PasswordManager.user st = Some u ->
    (forall w', getDocs (PasswordManager.passwordsPath u) w = (Rejected, w') ->
       failureOnly PasswordManager.fetchFailed st
         (snd (PasswordManager.fetchPasswords (w, st))) /\
       PasswordManager.isLoading (snd (PasswordManager.fetchPasswords (w, st))) = false) /\
    (forall values w',
       PasswordManager.editingPassword st = None ->
       addDoc (PasswordManager.passwordsPath u) (PasswordManager.dataToSave values) w
         = (Rejected, w') ->
       failureOnly PasswordManager.saveFailed st
         (snd (PasswordManager.handleFormSubmit values (w, st)))) /\
    (forall values editing w',
       PasswordManager.editingPassword st = Some editing ->
       updateDoc (PasswordManager.passwordsPath u) (Password.id editing)
         (PasswordManager.dataToSave values) w = (Rejected, w') ->
       failureOnly PasswordManager.saveFailed st
         (snd (PasswordManager.handleFormSubmit values (w, st)))) /\
    (forall id w',
       deleteDoc (PasswordManager.passwordsPath u) id w = (Rejected, w') ->
       failureOnly PasswordManager.deleteFailed st
         (snd (PasswordManager.handleDelete id (w, st)))).
Proof.
  intros W FS w st u Huser. split; [|split; [|split]].
  - intros w' Hget. rewrite (fetch_rejected w st u Huser w' Hget).
    split; [apply failureOnly_fetch | reflexivity].
  - intros values w' Hnew Hadd. rewrite (add_rejected w st u Huser values w' Hnew Hadd).
    apply failureOnly_toast_logCall. reflexivity.
  - intros values editing w' Hedit Hupd.
    rewrite (update_rejected w st u Huser values editing w' Hedit Hupd).
    apply failureOnly_toast_logCall. reflexivity.
  - intros id w' Hdel. rewrite (delete_rejected w st u Huser id w' Hdel).
    apply failureOnly_toast_logCall. reflexivity.
Qed.

(** A list loaded earlier, then a listing and a deletion while offline. *)
Lemma C8_store_failure_witness :
  let st := PasswordManager.set_isLoading false
              (PasswordManager.set_passwords
                 [Password.mk "a" "Gmail" "ann" "x" "Active" None None]
                 (PasswordManager.initialState (Some (PasswordManager.mkUser "u1")))) in
  failureOnly PasswordManager.fetchFailed st
    (snd (PasswordManager.fetchPasswords (tt, st))) /\
  failureOnly PasswordManager.deleteFailed st
    (snd (PasswordManager.handleDelete "a" (tt, st))).
Proof.
  intros st.
  destruct (C8_store_failure_keeps_list unit offline tt st
              (PasswordManager.mkUser "u1") eq_refl)
    as [Hfetch [_ [_ Hdelete]]].
  split.
  - apply (Hfetch tt). reflexivity.
  - apply (Hdelete "a" tt). reflexivity.
Defined.

(* ===================================================================== *)
(** ** The dashboard counters *)
(* ===================================================================== *)

Lemma firstSeen_In (k : string) (l : list string) :
  In k (firstSeen l) <-> In k l.
Proof.
  induction l as [|a l IH]; cbn [firstSeen In]; [tauto|].
  rewrite filter_In, IH, negb_true_iff, String.eqb_neq.
  destruct (string_dec a k) as [-> | Hne]; [tauto|].
  split; [tauto|]. intros [? | ?]; [contradiction|]. right. split; congruence.
Qed.

Lemma firstSeen_NoDup (l : list string) : List.NoDup (firstSeen l).
Proof.
  induction l as [|a l IH]; cbn [firstSeen]; constructor.
  - rewrite filter_In, negb_true_iff, String.eqb_neq. tauto.
  - apply List.NoDup_filter. exact IH.
Qed.

(** One more name at the end is listed last, if it is new. *)
Lemma firstSeen_snoc (l : list string) (k : string) :
  firstSeen (l ++ [k]) =
  firstSeen l ++ (if existsb (String.eqb k) l then [] else [k]).
Proof.
  induction l as [|a l IH]; [reflexivity|].
  cbn [firstSeen app existsb]. rewrite IH, List.filter_app. f_equal. f_equal.
  destruct (existsb (String.eqb k) l).
  - rewrite orb_true_r. reflexivity.
  - rewrite orb_false_r. cbn [List.filter]. destruct (String.eqb k a); reflexivity.
Qed.

Lemma existsb_eqb_In (k : string) (l : list string) :
  existsb (String.eqb k) l = true <-> In k l.
Proof.
  rewrite existsb_exists. split.
  - intros [x [Hin Heq]]. apply String.eqb_eq in Heq. subst. exact Hin.
  - intros Hin. exists k. split; [exact Hin | apply String.eqb_refl].
Qed.

Lemma frequency_snoc (l : list string) (k k' : string) :
  frequency (l ++ [k]) k' =
  (frequency l k' + (if String.eqb k' k then 1 else 0))%Z.
Proof.
  unfold frequency. rewrite count_occ_app. cbn [count_occ].
  destruct (string_dec k k') as [-> | Hne].
  - rewrite String.eqb_refl. lia.
  - assert (Hk : String.eqb k' k = false) by (apply String.eqb_neq; congruence).
    rewrite Hk. lia.
Qed.

Lemma frequency_absent (l : list string) (k : string) :
  ~ In k l -> frequency l k = 0%Z.
Proof.
  intros Hnew. unfold frequency.
  rewrite (proj1 (count_occ_not_In string_dec l k) Hnew). reflexivity.
Qed.

Section CounterObject.
Variable f : string -> Z.

Lemma get_map_present (ks : list string) (k : string) :
  In k ks -> JSObject.get (map (fun k' => (k', f k')) ks) k = Some (f k).
Proof.
  induction ks as [|a ks IH]; cbn [map JSObject.get In]; [tauto|].
  destruct (String.eqb_spec a k) as [-> | Hne]; [reflexivity|].
  intros [? | Hin]; [contradiction | exact (IH Hin)].
Qed.

Lemma get_map_absent (ks : list string) (k : string) :
  ~ In k ks -> JSObject.get (map (fun k' => (k', f k')) ks) k = None.
Proof.
  induction ks as [|a ks IH]; cbn [map JSObject.get In]; [reflexivity|].
  intros Hnew. destruct (String.eqb_spec a k) as [-> | Hne]; [tauto|].
  apply IH. tauto.
Qed.

Lemma set_map_absent (ks : list string) (k : string) (v : Z) :
  ~ In k ks ->
  JSObject.set (map (fun k' => (k', f k')) ks) k v =
  map (fun k' => (k', f k')) ks ++ [(k, v)].
Proof.
  induction ks as [|a ks IH]; cbn [map JSObject.set In app]; [reflexivity|].
  intros Hnew. destruct (String.eqb_spec a k) as [-> | Hne]; [tauto|].
  rewrite IH by tauto. reflexivity.
Qed.

Lemma set_map_present (ks : list string) (k : string) (v : Z) :
  List.NoDup ks -> In k ks ->
  JSObject.set (map (fun k' => (k', f k')) ks) k v =
  map (fun k' => (k', if String.eqb k' k then v else f k')) ks.
Proof.
  induction ks as [|a ks IH]; cbn [map JSObject.set In]; [tauto|].
  intros Hnodup Hin. inversion Hnodup as [|? ? Hfresh Hrest]; subst.
  destruct (String.eqb_spec a k) as [-> | Hne].
  - f_equal. apply map_ext_in. intros k' Hk'.
    destruct (String.eqb_spec k' k) as [-> | _]; [contradiction | reflexivity].
  - f_equal. apply IH; [exact Hrest|]. destruct Hin; [contradiction | assumption].
Qed.

End CounterObject.

(** The counter built by the [forEach] holds each distinct name once, in
    the order of first occurrence, with the number of its occurrences. *)
Lemma counter_spec (l : list string) :
  fold_left Dashboard.bump l [] =
  map (fun k => (k, frequency l k)) (firstSeen l).
Proof.
  induction l as [|k l IH] using rev_ind; [reflexivity|].
  rewrite fold_left_app. cbn [fold_left]. rewrite IH, firstSeen_snoc.
  unfold Dashboard.bump.
  destruct (existsb (String.eqb k) l) eqn:Hseen.
  - apply existsb_eqb_In in Hseen. rewrite app_nil_r.
    assert (Hin : In k (firstSeen l)) by (apply firstSeen_In; exact Hseen).
    rewrite (get_map_present (frequency l) _ _ Hin). cbn [default].
    rewrite (set_map_present (frequency l) _ _ _ (firstSeen_NoDup l) Hin).
    apply map_ext. intros k'. rewrite frequency_snoc.
    destruct (String.eqb_spec k' k) as [-> | _]; f_equal; lia.
  - assert (Hnew : ~ In k l).
    { intros Hin. apply existsb_eqb_In in Hin. congruence. }
    assert (Hnew' : ~ In k (firstSeen l)) by (rewrite firstSeen_In; exact Hnew).
    rewrite (get_map_absent (frequency l) _ _ Hnew'). cbn [default].
    rewrite (set_map_absent (frequency l) _ _ _ Hnew'), map_app. cbn [map].
    rewrite frequency_snoc, String.eqb_refl, (frequency_absent l k Hnew).
    f_equal. apply map_ext_in. intros k' Hk'. rewrite frequency_snoc.
    destruct (String.eqb_spec k' k) as [-> | _]; [contradiction|].
    f_equal. lia.
Qed.

Lemma insertIndex_In (x k : string) (l : list string) :
  In x (JSObject.insertIndex k l) <-> x = k \/ In x l.
Proof.
  induction l as [|a l IH]; cbn [JSObject.insertIndex In].
  - split; intros [? | ?]; auto.
  - destruct (JSObject.indexOf a <? JSObject.indexOf k)%N; cbn [In].
    + rewrite IH. split; intros [? | [? | ?]]; auto.
    + split; intros [? | [? | ?]]; auto.
Qed.

Lemma ascendingIndex_In (x : string) (l : list string) :
  In x (JSObject.ascendingIndex l) <-> In x l.
Proof.
  induction l as [|a l IH]; cbn [JSObject.ascendingIndex fold_right In]; [tauto|].
  rewrite insertIndex_In. fold (JSObject.ascendingIndex l). rewrite IH.
  split; intros [? | ?]; auto.
Qed.

Lemma ascendingIndex_perm (l : list string) :
  Permutation (JSObject.ascendingIndex l) l.
Proof.
  induction l as [|k l IH]; cbn [JSObject.ascendingIndex fold_right]; [reflexivity|].
  fold (JSObject.ascendingIndex l). rewrite <- IH at 2.
  generalize (JSObject.ascendingIndex l) as s. clear IH.
  induction s as [|a s IHs]; cbn [JSObject.insertIndex]; [reflexivity|].
  destruct (JSObject.indexOf a <? JSObject.indexOf k)%N; [|reflexivity].
  rewrite IHs. apply perm_swap.
Qed.

(** The array indices come out in ascending numeric order. *)
Lemma ascendingIndex_sorted (l : list string) :
  StronglySorted (fun a b => (JSObject.indexOf a <= JSObject.indexOf b)%N)
    (JSObject.ascendingIndex l).
Proof.
  induction l as [|k l IH]; cbn [JSObject.ascendingIndex fold_right]; [constructor|].
  fold (JSObject.ascendingIndex l). revert IH.
  generalize (JSObject.ascendingIndex l) as s.
  induction s as [|a s IHs]; intros Hsorted; cbn [JSObject.insertIndex].
  - repeat constructor.
  - inversion Hsorted as [|? ? Hrest Ha]; subst.
    destruct (N.ltb_spec (JSObject.indexOf a) (JSObject.indexOf k)) as [Hlt | Hge].
    + constructor; [apply IHs; exact Hrest|].
      apply List.Forall_forall. intros x Hx. apply insertIndex_In in Hx.
      destruct Hx as [-> | Hx]; [lia|].
      rewrite List.Forall_forall in Ha. apply Ha, Hx.
    + constructor; [exact Hsorted|].
      constructor; [exact Hge|].
      rewrite List.Forall_forall in *. intros x Hx. specialize (Ha x Hx). lia.
Qed.

Example arrayIndex_examples :
  map JSObject.arrayIndex ["0"; "7"; "07"; "2fa"; "4294967294"; "4294967295"; ""] =
  [Some 0%N; Some 7%N; None; None; Some 4294967294%N; None; None].
Proof. reflexivity. Qed.

Example order_example :
  JSObject.order ["prod"; "10"; "ai"; "7"] = ["7"; "10"; "prod"; "ai"].
Proof. reflexivity. Qed.

(** The object lists exactly the names it holds. *)
Lemma order_In (x : string) (names : list string) :
  In x (JSObject.order names) <-> In x names.
Proof.
  unfold JSObject.order.
  rewrite in_app_iff, ascendingIndex_In, !filter_In, negb_true_iff.
  destruct (JSObject.isArrayIndex x); intuition congruence.
Qed.

(** Without array indices among them the names are listed as created. *)
Lemma order_plain (names : list string) :
  Forall (fun k => JSObject.isArrayIndex k = false) names ->
  JSObject.order names = names.
Proof.
  intros Hplain. unfold JSObject.order.
  assert (Hboth : List.filter JSObject.isArrayIndex names = [] /\
                  List.filter (fun k => negb (JSObject.isArrayIndex k)) names = names).
  { induction Hplain as [|k ks Hk _ [IHnone IHall]]; cbn [List.filter].
    - split; reflexivity.
    - rewrite Hk. cbn [negb]. rewrite IHall. split; [exact IHnone | reflexivity]. }
  destruct Hboth as [-> ->]. reflexivity.
Qed.

Lemma flat_map_singletons {A B : Type} (h : A -> list B) (g : A -> B) (l : list A) :
  (forall x, In x l -> h x = [g x]) -> flat_map h l = map g l.
Proof.
  induction l as [|a l IH]; intros Hh; cbn [flat_map map]; [reflexivity|].
  rewrite (Hh a) by (left; reflexivity).
  rewrite IH by (intros x Hx; apply Hh; right; exact Hx). reflexivity.
Qed.

Lemma entries_map (f : string -> Z) (ks : list string) :
  JSObject.entries (map (fun k => (k, f k)) ks) =
  map (fun k => (k, f k)) (JSObject.order ks).
Proof.
  unfold JSObject.entries, JSObject.ownKeys.
  rewrite map_map. cbn [fst]. rewrite map_id.
  apply flat_map_singletons. intros k Hk.
  rewrite (get_map_present f ks k); [reflexivity|].
  apply order_In. exact Hk.
Qed.

Lemma slice_from_start {A : Type} (l : list A) (n : Z) :
  (0 <= n)%Z -> JS.slice l 0 n = firstn (Z.to_nat n) l.
Proof.
  intros Hn. unfold JS.slice.
  replace (0 <? 0)%Z with false by reflexivity.
  replace (n <? 0)%Z with false by (symmetry; apply Z.ltb_ge; exact Hn).
  replace (Z.min 0 (Z.of_nat (List.length l))) with 0%Z by lia.
  change (skipn (Z.to_nat 0) l) with l. rewrite Z.sub_0_r.
  destruct (Z.le_gt_cases n (Z.of_nat (List.length l))) as [Hle | Hgt].
  - rewrite Z.min_l by exact Hle. reflexivity.
  - rewrite Z.min_r by lia. rewrite Nat2Z.id.
    rewrite firstn_all. symmetry. apply firstn_all2. lia.
Qed.

(** The chart of a counter filled from [l]. *)
Lemma chartData_counter (l : list string) :
  Dashboard.chartData (fold_left Dashboard.bump l []) = topFiveInKeyOrder l.
Proof.
  unfold Dashboard.chartData, topFiveInKeyOrder.
  rewrite slice_from_start by lia.
  rewrite counter_spec, entries_map, map_map. reflexivity.
Qed.

Lemma topFive_plain (l : list string) :
  Forall (fun k => JSObject.isArrayIndex k = false) l ->
  topFiveInKeyOrder l = topFive l.
Proof.
  intros Hplain. unfold topFiveInKeyOrder, topFive.
  rewrite order_plain; [reflexivity|].
  rewrite List.Forall_forall in *. intros k Hk.
  apply Hplain, (proj1 (firstSeen_In k l)), Hk.
Qed.

(** *** The comparator sort is the stable sort by descending value *)

Lemma sort_insert_perm {A : Type} (cmp : A -> A -> Z) (x : A) (l : list A) :
  Permutation (JSArray.insert cmp x l) (x :: l).
Proof.
  induction l as [|y l IH]; cbn [JSArray.insert]; [reflexivity|].
  destruct (cmp x y >? 0)%Z; [|reflexivity].
  rewrite IH. apply perm_swap.
Qed.

Lemma sort_perm {A : Type} (cmp : A -> A -> Z) (l : list A) :
  Permutation (JSArray.sort cmp l) l.
Proof.
  induction l as [|x l IH]; cbn [JSArray.sort fold_right]; [reflexivity|].
  rewrite sort_insert_perm. apply perm_skip. exact IH.
Qed.

Lemma sort_insert_descending (x : Dashboard.Datum) (l : list Dashboard.Datum) :
  descending l -> descending (JSArray.insert byValueDescending x l).
Proof.
  unfold descending. induction l as [|y l IH]; intros Hsorted; cbn [JSArray.insert].
  - repeat constructor.
  - inversion Hsorted as [|? ? Hrest Hy]; subst.
    unfold byValueDescending at 1.
    destruct (Z.gtb_spec (Dashboard.value y - Dashboard.value x) 0) as [Hgt | Hle].
    + constructor; [apply IH; exact Hrest|].
      apply List.Forall_forall. intros z Hz.
      apply (Permutation_in _ (sort_insert_perm byValueDescending x l)) in Hz.
      destruct Hz as [<- | Hz]; [lia|].
      rewrite List.Forall_forall in Hy. apply Hy, Hz.
    + constructor; [exact Hsorted|].
      constructor; [lia|].
      rewrite List.Forall_forall in *. intros z Hz. specialize (Hy z Hz). lia.
Qed.

Lemma sort_descending (l : list Dashboard.Datum) :
  descending (JSArray.sort byValueDescending l).
Proof.
  induction l as [|x l IH]; cbn [JSArray.sort fold_right].
  - constructor.
  - apply sort_insert_descending. exact IH.
Qed.

(** Entries of equal value keep their relative order. *)
Lemma sort_stable (v : Z) (l : list Dashboard.Datum) :
  List.filter (fun d => (Dashboard.value d =? v)%Z) (JSArray.sort byValueDescending l) =
  List.filter (fun d => (Dashboard.value d =? v)%Z) l.
Proof.
  induction l as [|x l IH]; cbn [JSArray.sort fold_right]; [reflexivity|].
  fold (JSArray.sort byValueDescending l).
  transitivity (List.filter (fun d => (Dashboard.value d =? v)%Z)
                  (x :: JSArray.sort byValueDescending l)).
  - generalize (JSArray.sort byValueDescending l) as s. clear IH.
    induction s as [|y s IHs]; cbn [JSArray.insert]; [reflexivity|].
    unfold byValueDescending at 1.
    destruct (Z.gtb_spec (Dashboard.value y - Dashboard.value x) 0) as [Hgt | Hle];
      [|reflexivity].
    cbn [List.filter] in *.
    destruct (Z.eqb_spec (Dashboard.value y) v) as [Hy | Hy];
      destruct (Z.eqb_spec (Dashboard.value x) v) as [Hx | Hx];
      rewrite IHs; try reflexivity; lia.
  - cbn [List.filter]. rewrite IH. reflexivity.
Qed.

Lemma StronglySorted_app_cross {A : Type} (R : A -> A -> Prop) (l1 l2 : list A) :
  StronglySorted R (l1 ++ l2) ->
  forall x y, In x l1 -> In y l2 -> R x y.
Proof.
  induction l1 as [|a l1 IH]; cbn [app]; intros Hsorted x y Hx Hy; [destruct Hx|].
  inversion Hsorted as [|? ? Hrest Ha]; subst.
  destruct Hx as [<- | Hx].
  - rewrite List.Forall_forall in Ha. apply Ha, in_or_app. right. exact Hy.
  - apply (IH Hrest x y Hx Hy).
Qed.

Lemma In_firstn {A : Type} (n : nat) (l : list A) (x : A) :
  In x (firstn n l) -> In x l.
Proof.
  intros Hx. rewrite <- (firstn_skipn n l). apply in_or_app. left. exact Hx.
Qed.

Lemma StronglySorted_firstn {A : Type} (R : A -> A -> Prop) (n : nat) (l : list A) :
  StronglySorted R l -> StronglySorted R (firstn n l).
Proof.
  revert l. induction n as [|n IH]; intros l Hsorted; cbn [firstn]; [constructor|].
  destruct l as [|a l]; [constructor|].
  inversion Hsorted as [|? ? Hrest Ha]; subst.
  constructor; [apply IH; exact Hrest|].
  rewrite List.Forall_forall in *. intros x Hx. apply Ha.
  apply (In_firstn n l x Hx).
Qed.

(** What the five entries are: at most five, in descending order of value,
    each a name of [l] with its number of occurrences, and no name left out
    occurs more often than a name listed. *)
Lemma topFiveInKeyOrder_sound (l : list string) :
  (List.length (topFiveInKeyOrder l) <= 5)%nat /\
  descending (topFiveInKeyOrder l) /\
  (forall d, In d (topFiveInKeyOrder l) ->
             In (Dashboard.name d) l /\
             Dashboard.value d = frequency l (Dashboard.name d)) /\
  (forall k d, In k l ->
               ~ In k (map Dashboard.name (topFiveInKeyOrder l)) ->
               In d (topFiveInKeyOrder l) ->
               (frequency l k <= Dashboard.value d)%Z).
Proof.
  unfold topFiveInKeyOrder.
  set (all := map (fun k => Dashboard.mkDatum k (frequency l k))
                  (JSObject.order (firstSeen l))).
  set (sorted := JSArray.sort byValueDescending all).
  assert (Hall : forall d, In d sorted <->
                           In (Dashboard.name d) l /\
                           d = Dashboard.mkDatum (Dashboard.name d)
                                 (frequency l (Dashboard.name d))).
  { intros d. unfold sorted. split.
    - intros Hd. apply (Permutation_in _ (sort_perm byValueDescending all)) in Hd.
      unfold all in Hd. apply in_map_iff in Hd. destruct Hd as [k [<- Hk]].
      apply (proj1 (order_In _ _)) in Hk. apply (proj1 (firstSeen_In _ _)) in Hk.
      split; [exact Hk | reflexivity].
    - intros [Hname Hd].
      apply (Permutation_in _ (Permutation_sym (sort_perm byValueDescending all))).
      unfold all. apply in_map_iff. exists (Dashboard.name d).
      split; [symmetry; exact Hd|].
      apply (proj2 (order_In _ _)), (proj2 (firstSeen_In _ _)). exact Hname. }
  split; [apply firstn_le_length|].
  split; [apply StronglySorted_firstn, sort_descending|].
  split.
  - intros d Hd. apply In_firstn in Hd. apply (proj1 (Hall d)) in Hd.
    destruct Hd as [Hname Hd].
    split; [exact Hname | rewrite Hd at 1; reflexivity].
  - intros k d Hk Hout Hd.
    assert (Hin : In (Dashboard.mkDatum k (frequency l k)) sorted).
    { apply Hall. split; [exact Hk | reflexivity]. }
    rewrite <- (firstn_skipn 5 sorted) in Hin. apply in_app_or in Hin.
    destruct Hin as [Hfirst | Hrest].
    + exfalso. apply Hout. apply in_map_iff.
      exists (Dashboard.mkDatum k (frequency l k)). split; [reflexivity | exact Hfirst].
    + pose proof (sort_descending all) as Hsorted. fold sorted in Hsorted.
      unfold descending in Hsorted. rewrite <- (firstn_skipn 5 sorted) in Hsorted.
      apply (StronglySorted_app_cross _ _ _ Hsorted _ _ Hd Hrest).
Qed.

(** C9, as amended.  For every triple of loaded lists whose tags and
    platforms are no names inherited from [Object.prototype], the page, which
    holds no filter or pagination state, reports the five most frequent tags
    over the three kinds and the five most frequent platforms over the
    passwords, in descending order of frequency; a tie goes to the name the
    counter object lists first, that is, array-index names such as "7" in
    ascending numeric order before all others, and the others in the order
    they were first met.  When no name is an array index, ties go by the
    order of first encounter. *)
Theorem C9_top_five_by_frequency :
  forall (apiKeys : list ApiKey.t) (passwords : list Password.t) (notes : list Note.t),
    Forall (fun k => JSObject.plainKey k = true)
      (Dashboard.tagStream apiKeys passwords notes ++ map Password.appName passwords) ->
    (Dashboard.tagChartData (Dashboard.fetchData apiKeys passwords notes) =
       topFiveInKeyOrder (Dashboard.tagStream apiKeys passwords notes) /\
     Dashboard.platformChartData (Dashboard.fetchData apiKeys passwords notes) =
       topFiveInKeyOrder (map Password.appName passwords)) /\
    (Forall (fun k => JSObject.isArrayIndex k = false)
       (Dashboard.tagStream apiKeys passwords notes) ->
     Dashboard.tagChartData (Dashboard.fetchData apiKeys passwords notes) =
       topFive (Dashboard.tagStream apiKeys passwords notes)) /\
    (Forall (fun k => JSObject.isArrayIndex k = false) (map Password.appName passwords) ->
     Dashboard.platformChartData (Dashboard.fetchData apiKeys passwords notes) =
       topFive (map Password.appName passwords)).
Proof.
  intros apiKeys passwords notes _.
  assert (Htags : Dashboard.tagChartData (Dashboard.fetchData apiKeys passwords notes) =
                  topFiveInKeyOrder (Dashboard.tagStream apiKeys passwords notes))
    by apply chartData_counter.
  assert (Hplatforms :
            Dashboard.platformChartData (Dashboard.fetchData apiKeys passwords notes) =
            topFiveInKeyOrder (map Password.appName passwords))
    by apply chartData_counter.
  split; [split; assumption|]. split.
  - intros Hplain. rewrite Htags. apply topFive_plain, Hplain.
  - intros Hplain. rewrite Hplatforms. apply topFive_plain, Hplain.
Qed.

(** Two passwords and a note; "work" occurs twice. *)
Lemma C9_top_five_witness :
  Dashboard.tagChartData
    (Dashboard.fetchData []
       [Password.mk "p1" "Gmail" "ann" "x" "Active" (Some ["mail"; "work"]) None;
        Password.mk "p2" "Slack" "bob" "y" "Active" (Some ["work"]) None]
       [Note.mk "n1" "wifi" "hunter2" (Some ["home"]) None]) =
  [Dashboard.mkDatum "work" 2; Dashboard.mkDatum "mail" 1; Dashboard.mkDatum "home" 1].
Proof.
  destruct (C9_top_five_by_frequency []
       [Password.mk "p1" "Gmail" "ann" "x" "Active" (Some ["mail"; "work"]) None;
        Password.mk "p2" "Slack" "bob" "y" "Active" (Some ["work"]) None]
       [Note.mk "n1" "wifi" "hunter2" (Some ["home"]) None])
    as [_ [Htags _]].
  - repeat constructor.
  - rewrite Htags; [reflexivity | repeat constructor].
Defined.

(** C9 as written fails: the tag "prod" is met before the tag "7", both occur
    once, and the chart lists "7" first. *)
Lemma C9_first_met_tie_counterexample :
  let passwords :=
    [Password.mk "p1" "Gmail" "ann" "x" "Active" (Some ["prod"; "7"]) None] in
  Dashboard.tagStream [] passwords [] = ["prod"; "7"] /\
  Dashboard.tagChartData (Dashboard.fetchData [] passwords []) =
    [Dashboard.mkDatum "7" 1; Dashboard.mkDatum "prod" 1] /\
  Dashboard.tagChartData (Dashboard.fetchData [] passwords []) <>
    topFive (Dashboard.tagStream [] passwords []).
Proof.
  cbv zeta. split; [reflexivity|]. split; [reflexivity|].
  vm_compute. discriminate.
Qed.

(* ===================================================================== *)
(** ** The masked secret column *)
(* ===================================================================== *)

(** A hidden password shows as twelve bullets, whatever the password is. *)
Lemma password_mask_is_twelve_bullets (visible : gmap string bool) (p : Password.t) :
  PasswordManager.isVisible visible (Password.id p) = false ->
  PasswordManager.secretCell visible p = "••••••••••••".
Proof.
  intros Hhidden. unfold PasswordManager.secretCell. rewrite Hhidden. reflexivity.
Qed.

(** A toggle flips the record it is for and no other. *)
Lemma toggleVisibility_same (id : string) (st : PasswordManager.State) :
  PasswordManager.isVisible
    (PasswordManager.visiblePasswords (PasswordManager.toggleVisibility id st)) id =
  negb (PasswordManager.isVisible (PasswordManager.visiblePasswords st) id).
Proof.
  unfold PasswordManager.toggleVisibility, PasswordManager.isVisible.
  cbn [PasswordManager.visiblePasswords PasswordManager.set_visiblePasswords].
  rewrite lookup_insert_eq. reflexivity.
Qed.

Lemma toggleVisibility_other (id other : string) (st : PasswordManager.State) :
  id <> other ->
  PasswordManager.isVisible
    (PasswordManager.visiblePasswords (PasswordManager.toggleVisibility id st)) other =
  PasswordManager.isVisible (PasswordManager.visiblePasswords st) other.
Proof.
  intros Hne. unfold PasswordManager.toggleVisibility, PasswordManager.isVisible.
  cbn [PasswordManager.visiblePasswords PasswordManager.set_visiblePasswords].
  rewrite lookup_insert_ne by exact Hne. reflexivity.
Qed.

(** A hidden API key shows as a text that does not depend on the key. *)
Lemma apiKey_mask_ignores_secret (visible : gmap string bool) (k k' : ApiKey.t) :
  ApiKey.id k = ApiKey.id k' ->
  ApiKeyManager.isVisible visible (ApiKey.id k) = false ->
  ApiKeyManager.secretCell visible k = ApiKeyManager.secretCell visible k'.
Proof.
  intros Hid Hhidden. unfold ApiKeyManager.secretCell.
  rewrite <- Hid, Hhidden. reflexivity.
Qed.

Lemma searchMatch_sameButSecret (Q : string) (p q : Password.t) :
  sameButSecret p q ->
  PasswordManager.searchMatch Q p = PasswordManager.searchMatch Q q.
Proof.
  intros [_ [Happ [Huser [_ [Htags _]]]]]. unfold PasswordManager.searchMatch.
  rewrite Happ, Huser, Htags. reflexivity.
Qed.

Lemma platformMatch_sameButSecret (C : string) (p q : Password.t) :
  sameButSecret p q ->
  PasswordManager.platformMatch C p = PasswordManager.platformMatch C q.
Proof.
  intros [_ [Happ _]]. unfold PasswordManager.platformMatch.
  rewrite Happ. reflexivity.
Qed.

Lemma Forall2_filter_same {A : Type} (R : A -> A -> Prop) (f : A -> bool)
    (l1 l2 : list A) :
  (forall x y, R x y -> f x = f y) ->
  Forall2 R l1 l2 -> Forall2 R (List.filter f l1) (List.filter f l2).
Proof.
  intros Hf Hrel. induction Hrel as [|x y l1 l2 Hxy _ IH]; cbn [List.filter].
  - constructor.
  - rewrite (Hf x y Hxy). destruct (f y); [constructor; assumption | exact IH].
Qed.

Lemma Forall2_slice {A : Type} (R : A -> A -> Prop) (l1 l2 : list A) (a b : Z) :
  Forall2 R l1 l2 -> Forall2 R (JS.slice l1 a b) (JS.slice l2 a b).
Proof.
  intros Hrel. unfold JS.slice.
  rewrite (Forall2_length _ _ _ Hrel).
  apply Forall2_take, Forall2_drop, Hrel.
Qed.

Lemma renderRow_sameButSecret (visible : gmap string bool) (p q : Password.t) :
  sameButSecret p q ->
  PasswordManager.isVisible visible (Password.id p) = false ->
  PasswordManager.renderRow visible p = PasswordManager.renderRow visible q.
Proof.
  intros [Hid [Happ [Huser [Hstatus [Htags _]]]]] Hhidden.
  unfold PasswordManager.renderRow, PasswordManager.secretCell.
  rewrite <- Hid, Hhidden, Happ, Huser, Hstatus, Htags. reflexivity.
Qed.

Lemma Forall2_with_left {A : Type} (R : A -> A -> Prop) (P : A -> Prop)
    (l1 l2 : list A) :
  Forall2 R l1 l2 -> Forall P l1 -> Forall2 (fun x y => R x y /\ P x) l1 l2.
Proof.
  induction 1 as [|x y l1 l2 Hxy _ IH]; intros Hall; [constructor|].
  inversion Hall as [|? ? Hx Hrest]; subst. constructor; [split; assumption|].
  apply IH, Hrest.
Qed.

(** With the toggle of every loaded record off, two loaded lists that
    differ only in the secrets show the same table, under every query,
    filter, page and page size.  The ids are not names inherited from
    [Object.prototype], for which the object of the source has a value that
    no click has set. *)
Lemma masked_table_ignores_secrets (st : PasswordManager.State)
    (others : list Password.t) :
  Forall2 sameButSecret (PasswordManager.passwords st) others ->
  Forall (fun p =>
            JSObject.plainKey (Password.id p) = true /\
            PasswordManager.isVisible (PasswordManager.visiblePasswords st)
              (Password.id p) = false)
         (PasswordManager.passwords st) ->
  PasswordManager.renderTableBody (PasswordManager.set_passwords others st) =
  PasswordManager.renderTableBody st.
Proof.
  intros Hrel Hhidden. unfold PasswordManager.renderTableBody.
  change (PasswordManager.isLoading (PasswordManager.set_passwords others st))
    with (PasswordManager.isLoading st).
  destruct (PasswordManager.isLoading st); [reflexivity|].
  pose proof (Forall2_with_left _ _ _ _ Hrel Hhidden) as Hboth. cbv beta in Hboth.
  assert (Hpage : Forall2
                    (fun p q =>
                       sameButSecret p q /\
                       (JSObject.plainKey (Password.id p) = true /\
                        PasswordManager.isVisible (PasswordManager.visiblePasswords st)
                          (Password.id p) = false))
                    (PasswordManager.paginatedPasswords st)
                    (PasswordManager.paginatedPasswords
                       (PasswordManager.set_passwords others st))).
  { unfold PasswordManager.paginatedPasswords. apply Forall2_slice.
    unfold PasswordManager.filteredPasswords, PasswordManager.filtered.
    apply Forall2_filter_same; [|exact Hboth].
    intros p q [Hpq _].
    rewrite (searchMatch_sameButSecret _ p q Hpq), (platformMatch_sameButSecret _ p q Hpq).
    reflexivity. }
  change (PasswordManager.visiblePasswords (PasswordManager.set_passwords others st))
    with (PasswordManager.visiblePasswords st).
  induction Hpage as [|p q ps qs [Hpq [_ Hoff]] Hrest IH]; [reflexivity|].
  f_equal. cbn [map]. f_equal.
  - symmetry. apply renderRow_sameButSecret; [exact Hpq | exact Hoff].
  - clear IH. induction Hrest as [|p' q' ps' qs' [Hpq' [_ Hoff']] _ IH']; [reflexivity|].
    cbn [map]. f_equal; [|exact IH'].
    symmetry. apply renderRow_sameButSecret; [exact Hpq' | exact Hoff'].
Qed.

(** C10 fails for API keys.  The hidden key of [ApiKeyManager.tsx] shows as
    twelve copies of the three characters of the literal in the file
    (a-circumflex, euro sign, cent sign), not as twelve bullets, which is
    what the hidden password of [PasswordManager.tsx] shows as. *)
Theorem C10_api_key_mask_is_not_bullets :
  let key := ApiKey.mk "k1" "Gemini" "sk-123" "Active" (Some ["ai"; "prod"]) None in
  ApiKeyManager.isVisible ∅ (ApiKey.id key) = false /\
  ApiKeyManager.secretCell ∅ key = "â€¢â€¢â€¢â€¢â€¢â€¢â€¢â€¢â€¢â€¢â€¢â€¢" /\
  ApiKeyManager.secretCell ∅ key <> "••••••••••••" /\
  PasswordManager.secretCell ∅
    (Password.mk "p1" "Gmail" "ann" "sk-123" "Active" None None) = "••••••••••••".
Proof.
  cbv zeta. split; [reflexivity|]. split; [reflexivity|]. split; [|reflexivity].
  vm_compute. discriminate.
Qed.

(* ===================================================================== *)
(** ** More on search *)
(* ===================================================================== *)

Lemma includes_empty (s : string) : JS.includes s EmptyString = true.
Proof.
  apply includes_spec. exists EmptyString, s. reflexivity.
Qed.

Lemma filter_all {A : Type} (f : A -> bool) (l : list A) :
  (forall x, f x = true) -> List.filter f l = l.
Proof.
  intros Hall. induction l as [|x l IH]; cbn [List.filter]; [reflexivity|].
  rewrite Hall, IH. reflexivity.
Qed.

(** An empty query keeps every record, with or without tags: the password
    list under the filter "all", the key list and the note list are shown
    whole. *)
Theorem empty_query_shows_all :
  (forall passwords, PasswordManager.filtered passwords "" "all" = passwords) /\
  (forall apiKeys, ApiKeyManager.filteredKeys apiKeys "" = apiKeys) /\
  (forall notes, NotesManager.filteredNotes notes "" = notes).
Proof.
  split; [|split].
  - intros passwords. apply filter_all. intros p.
    unfold PasswordManager.searchMatch. cbn [JS.toLowerCase].
    rewrite includes_empty. reflexivity.
  - intros apiKeys. apply filter_all. intros k.
    unfold ApiKeyManager.searchMatch. cbn [JS.toLowerCase].
    rewrite includes_empty. reflexivity.
  - intros notes. apply filter_all. intros n.
    unfold NotesManager.searchMatch. cbn [JS.toLowerCase].
    rewrite includes_empty. reflexivity.
Qed.

Lemma asciiText_app (a b : string) :
  asciiText (a ++ b) = asciiText a && asciiText b.
Proof.
  induction a as [|c a IH]; [reflexivity|].
  rewrite append_String. cbn [asciiText]. rewrite IH, andb_assoc. reflexivity.
Qed.

(** What occurs in ASCII text is ASCII text. *)
Lemma asciiText_Substring (q q' : string) :
  Substring q q' -> asciiText q' = true -> asciiText q = true.
Proof.
  intros [pre [post ->]]. rewrite !asciiText_app, !andb_true_iff. tauto.
Qed.

(** A text that contains the longer query, both lower-cased, contains the
    shorter one: of the text nothing is used but that it contains. *)
Lemma includes_lowered_narrow (x q q' : string) :
  Substring q q' ->
  JS.includes x (JS.toLowerCase q') = true ->
  JS.includes x (JS.toLowerCase q) = true.
Proof.
  rewrite !includes_spec. intros Hsub Hlong.
  apply (Substring_trans _ (JS.toLowerCase q')); [|exact Hlong].
  apply Substring_toLowerCase, Hsub.
Qed.

Lemma tagsMatch_narrow (tags : option (list string)) (q q' : string) :
  Substring q q' -> tagsMatch tags q' = true -> tagsMatch tags q = true.
Proof.
  intros Hsub. destruct tags as [ts|]; [|discriminate].
  cbn [tagsMatch]. rewrite !existsb_exists.
  intros [tag [Hin Hlong]]. exists tag. split; [exact Hin|].
  apply (includes_lowered_narrow _ q q' Hsub Hlong).
Qed.

(** A longer query never shows more: when the query [q] occurs in the query
    [q'], a query of ASCII text, every record shown for [q'] is shown for
    [q], in each of the three managers.  The records may hold any text: the
    lower-casing is used of the two queries only. *)
Theorem longer_query_narrows :
  forall q q' : string,
    asciiText q' = true ->
    JS.includes q' q = true ->
    asciiText q = true /\
    (forall passwords C p,
        In p (PasswordManager.filtered passwords q' C) ->
        In p (PasswordManager.filtered passwords q C)) /\
    (forall apiKeys k,
        In k (ApiKeyManager.filteredKeys apiKeys q') ->
        In k (ApiKeyManager.filteredKeys apiKeys q)) /\
    (forall notes n,
        In n (NotesManager.filteredNotes notes q') ->
        In n (NotesManager.filteredNotes notes q)).
Proof.
  intros q q' Hascii Hinc. apply includes_spec in Hinc.
  split; [exact (asciiText_Substring q q' Hinc Hascii)|]. split; [|split].
  - intros passwords C p. unfold PasswordManager.filtered.
    rewrite !filter_In, !andb_true_iff. unfold PasswordManager.searchMatch.
    rewrite !orb_true_iff.
    intros [Hin [[[Happ | Huser] | Htags] Hplatform]];
      (split; [exact Hin|]); (split; [|exact Hplatform]).
    + left. left. apply (includes_lowered_narrow _ q q' Hinc Happ).
    + left. right. apply (includes_lowered_narrow _ q q' Hinc Huser).
    + right. apply (tagsMatch_narrow _ q q' Hinc Htags).
  - intros apiKeys k. unfold ApiKeyManager.filteredKeys.
    rewrite !filter_In. unfold ApiKeyManager.searchMatch. rewrite !orb_true_iff.
    intros [Hin [Hname | Htags]]; (split; [exact Hin|]).
    + left. apply (includes_lowered_narrow _ q q' Hinc Hname).
    + right. apply (tagsMatch_narrow _ q q' Hinc Htags).
  - intros notes n. unfold NotesManager.filteredNotes.
    rewrite !filter_In. unfold NotesManager.searchMatch. rewrite !orb_true_iff.
    intros [Hin [[Htitle | Hcontent] | Htags]]; (split; [exact Hin|]).
    + left. left. apply (includes_lowered_narrow _ q q' Hinc Htitle).
    + left. right. apply (includes_lowered_narrow _ q q' Hinc Hcontent).
    + right. apply (tagsMatch_narrow _ q q' Hinc Htags).
Qed.

Lemma longer_query_narrows_witness :
  In (Note.mk "n1" "Home wifi password" "hunter2" None None)
     (NotesManager.filteredNotes
        [Note.mk "n1" "Home wifi password" "hunter2" None None] "wifi").
Proof.
  destruct (longer_query_narrows "wifi" "wifi pass" eq_refl eq_refl)
    as [_ [_ [_ Hnotes]]].
  apply Hnotes. left. reflexivity.
Defined.

(* ===================================================================== *)
(** ** The platform list *)
(* ===================================================================== *)

Lemma insert_default_sorted (x : string) (s : list string) :
  StronglySorted (fun a b => String_as_OT.cmp a b = Lt) s ->
  ~ In x s ->
  StronglySorted (fun a b => String_as_OT.cmp a b = Lt)
    (JSArray.insert JSString.defaultCompare x s).
Proof.
  induction s as [|y s IH]; intros Hsorted Hfresh; cbn [JSArray.insert].
  - repeat constructor.
  - inversion Hsorted as [|? ? Hrest Hy]; subst.
    unfold JSString.defaultCompare at 1.
    destruct (String_as_OT.cmp x y) eqn:Hxy.
    + exfalso. apply Hfresh. left. symmetry. apply String_as_OT.cmp_eq. exact Hxy.
    + change ((-1 >? 0)%Z) with false. cbv iota.
      constructor; [exact Hsorted|]. constructor; [exact Hxy|].
      rewrite List.Forall_forall in *. intros z Hz.
      apply String_as_OT.cmp_lt.
      apply (String_as_OT.lt_trans x y z); apply String_as_OT.cmp_lt; auto.
    + change ((1 >? 0)%Z) with true. cbv iota.
      constructor.
      * apply IH; [exact Hrest|]. intros Hin. apply Hfresh. right. exact Hin.
      * apply List.Forall_forall. intros z Hz.
        apply (Permutation_in _ (sort_insert_perm JSString.defaultCompare x s)) in Hz.
        destruct Hz as [<- | Hz].
        -- rewrite String_as_OT.cmp_antisym, Hxy. reflexivity.
        -- rewrite List.Forall_forall in Hy. apply Hy, Hz.
Qed.

Lemma sort_default_sorted (l : list string) :
  List.NoDup l ->
  StronglySorted (fun a b => String_as_OT.cmp a b = Lt)
    (JSArray.sort JSString.defaultCompare l).
Proof.
  induction 1 as [|x l Hfresh _ IH]; cbn [JSArray.sort fold_right]; [constructor|].
  apply insert_default_sorted; [exact IH|].
  intros Hin. apply Hfresh.
  apply (Permutation_in _ (sort_perm JSString.defaultCompare l) Hin).
Qed.

Lemma platforms_In (passwords : list Password.t) (a : string) :
  In a (PasswordScreen.platforms passwords) <->
  exists p, In p passwords /\ Password.appName p = a.
Proof.
  unfold PasswordScreen.platforms. split.
  - intros Hin. apply (Permutation_in _ (sort_perm _ _)) in Hin.
    apply (proj1 (firstSeen_In _ _)) in Hin. apply in_map_iff in Hin.
    destruct Hin as [p [Hname Hp]]. exists p. auto.
  - intros [p [Hp Hname]].
    apply (Permutation_in _ (Permutation_sym (sort_perm _ _))).
    apply (proj2 (firstSeen_In _ _)). apply in_map_iff. exists p. auto.
Qed.

(** The platform list of the filter and of the form holds exactly the
    appNames of the loaded passwords, each once; and when these names are
    ASCII text it is in strictly ascending order of the character codes. *)
Theorem platforms_sorted_distinct :
  forall passwords : list Password.t,
    List.NoDup (PasswordScreen.platforms passwords) /\
    (forall a, In a (PasswordScreen.platforms passwords) <->
               exists p, In p passwords /\ Password.appName p = a) /\
    (allAscii (map Password.appName passwords) ->
     allAscii (PasswordScreen.platforms passwords) /\
     StronglySorted (fun a b => String_as_OT.cmp a b = Lt)
       (PasswordScreen.platforms passwords)).
Proof.
  intros passwords. split; [|split].
  - apply (Permutation.Permutation_NoDup
             (Permutation_sym (sort_perm JSString.defaultCompare _))).
    apply firstSeen_NoDup.
  - apply platforms_In.
  - intros Hascii. split.
    + unfold allAscii in *. rewrite List.Forall_forall in *. intros a Ha.
      apply platforms_In in Ha. destruct Ha as [p [Hp <-]].
      apply Hascii, in_map, Hp.
    + apply sort_default_sorted, firstSeen_NoDup.
Qed.

Lemma platforms_sorted_witness :
  let passwords := [Password.mk "a" "Slack" "ann" "x" "Active" None None;
                    Password.mk "b" "Gmail" "bob" "y" "Active" None None;
                    Password.mk "c" "Slack" "cy" "z" "Active" None None] in
  allAscii (map Password.appName passwords) /\
  StronglySorted (fun a b => String_as_OT.cmp a b = Lt)
    (PasswordScreen.platforms passwords).
Proof.
  intros passwords.
  assert (Hascii : allAscii (map Password.appName passwords)).
  { repeat constructor. }
  destruct (platforms_sorted_distinct passwords) as [_ [_ Hsorted]].
  split; [exact Hascii | apply (Hsorted Hascii)].
Defined.

Lemma searchMatch_empty_query (p : Password.t) :
  PasswordManager.searchMatch "" p = true.
Proof.
  unfold PasswordManager.searchMatch. cbn [JS.toLowerCase].
  rewrite includes_empty. reflexivity.
Qed.

Lemma filtered_In (passwords : list Password.t) (Q C : string) (p : Password.t) :
  In p (PasswordManager.filtered passwords Q C) <->
  In p passwords /\ PasswordManager.searchMatch Q p = true /\
  (C = "all" \/ Password.appName p = C).
Proof.
  unfold PasswordManager.filtered, PasswordManager.platformMatch.
  rewrite filter_In, andb_true_iff, orb_true_iff, !String.eqb_eq. tauto.
Qed.

(** Choosing a platform of the list, with no query typed, never empties the
    table, and unless the platform is itself called "all" the table then
    holds exactly the passwords of that platform. *)
Theorem listed_platform_filters_to_its_records :
  forall (passwords : list Password.t) (c : string),
    In c (PasswordScreen.platforms passwords) ->
    PasswordManager.filtered passwords "" c <> [] /\
    (c <> "all" ->
     forall p, In p (PasswordManager.filtered passwords "" c) <->
               In p passwords /\ Password.appName p = c).
Proof.
  intros passwords c Hc. apply platforms_In in Hc. destruct Hc as [p0 [Hp0 Hname]].
  split.
  - intros Hempty.
    assert (Hin : In p0 (PasswordManager.filtered passwords "" c)).
    { apply filtered_In. split; [exact Hp0|].
      split; [apply searchMatch_empty_query | right; exact Hname]. }
    rewrite Hempty in Hin. destruct Hin.
  - intros Hnotall p. rewrite filtered_In. split.
    + intros [Hp [_ [Hall | Hsame]]]; [contradiction | auto].
    + intros [Hp Hsame]. split; [exact Hp|].
      split; [apply searchMatch_empty_query | right; exact Hsame].
Qed.

Lemma listed_platform_witness :
  PasswordManager.filtered
    [Password.mk "a" "Slack" "ann" "x" "Active" None None;
     Password.mk "b" "Gmail" "bob" "y" "Active" None None] "" "Gmail" <> [].
Proof.
  apply (listed_platform_filters_to_its_records
           [Password.mk "a" "Slack" "ann" "x" "Active" None None;
            Password.mk "b" "Gmail" "bob" "y" "Active" None None] "Gmail").
  left. reflexivity.
Defined.

Example platforms_example :
  PasswordScreen.platforms
    [Password.mk "a" "Slack" "ann" "x" "Active" None None;
     Password.mk "b" "Gmail" "bob" "y" "Active" None None;
     Password.mk "c" "Slack" "cy" "z" "Active" None None] = ["Gmail"; "Slack"].
Proof. reflexivity. Qed.

(* ===================================================================== *)
(** ** Pages *)
(* ===================================================================== *)

(** A window that starts inside or behind the list. *)
Lemma slice_window {A : Type} (l : list A) (a per : nat) :
  JS.slice l (Z.of_nat a) (Z.of_nat a + Z.of_nat per) = firstn per (skipn a l).
Proof.
  unfold JS.slice.
  replace (Z.of_nat a <? 0)%Z with false by (symmetry; apply Z.ltb_ge; lia).
  replace (Z.of_nat a + Z.of_nat per <? 0)%Z with false
    by (symmetry; apply Z.ltb_ge; lia).
  destruct (Nat.le_gt_cases a (List.length l)) as [Hin | Hout].
  - rewrite (Z.min_l (Z.of_nat a)) by lia. rewrite Nat2Z.id.
    destruct (Nat.le_gt_cases (a + per) (List.length l)) as [Hfull | Hshort].
    + rewrite Z.min_l by lia. f_equal. lia.
    + rewrite Z.min_r by lia.
      rewrite (firstn_all2 (n := per)) by (rewrite length_skipn; lia).
      apply firstn_all2. rewrite length_skipn. lia.
  - rewrite !Z.min_r by lia. rewrite Z.sub_diag. cbn [Z.to_nat firstn].
    rewrite (skipn_all2 (n := a)) by lia. destruct per; reflexivity.
Qed.

Lemma slice_nil {A : Type} (a b : Z) : JS.slice (@nil A) a b = [].
Proof.
  unfold JS.slice. rewrite skipn_nil. apply firstn_nil.
Qed.

Lemma paginated_window (st : PasswordManager.State) :
  (1 <= PasswordManager.currentPage st)%Z ->
  (0 < PasswordManager.entriesPerPage st)%Z ->
  PasswordManager.paginatedPasswords st =
  firstn (Z.to_nat (PasswordManager.entriesPerPage st))
    (skipn (Z.to_nat ((PasswordManager.currentPage st - 1) *
                      PasswordManager.entriesPerPage st))
       (PasswordManager.filteredPasswords st)).
Proof.
  intros Hcur Hper. unfold PasswordManager.paginatedPasswords. cbv zeta.
  rewrite <- slice_window. f_equal; rewrite !Z2Nat.id; nia.
Qed.

Lemma start_before_end (st : PasswordManager.State) :
  (0 < PasswordManager.entriesPerPage st)%Z ->
  (1 <= PasswordManager.currentPage st <= PasswordManager.totalPages st)%Z ->
  ((PasswordManager.currentPage st - 1) * PasswordManager.entriesPerPage st
   < Z.of_nat (List.length (PasswordManager.filteredPasswords st)))%Z.
Proof.
  intros Hper Hcur. pose proof (totalPages_bounds st Hper) as Hb. nia.
Qed.

(** A page inside the range is not empty. *)
Lemma page_not_empty (st : PasswordManager.State) :
  (0 < PasswordManager.entriesPerPage st)%Z ->
  (1 <= PasswordManager.currentPage st <= PasswordManager.totalPages st)%Z ->
  (1 <= List.length (PasswordManager.paginatedPasswords st))%nat.
Proof.
  intros Hper Hcur. pose proof (start_before_end st Hper Hcur) as Hstart.
  rewrite paginated_window by lia.
  rewrite length_firstn, length_skipn. nia.
Qed.

(** With an allowed page size and the page between 1 and the page count,
    the page shown holds min(pageSize, filteredCount - start) records of the
    filtered list: at least one, and exactly pageSize before the last page. *)
Theorem page_sizes :
  forall (st : PasswordManager.State) (o : PasswordManager.EntriesOption),
    PasswordManager.entriesPerPage st = PasswordManager.entriesNumber o ->
    (1 <= PasswordManager.currentPage st <= PasswordManager.totalPages st)%Z ->
    Z.of_nat (List.length (PasswordManager.paginatedPasswords st)) =
      Z.min (PasswordManager.entriesPerPage st)
        (Z.of_nat (List.length (PasswordManager.filteredPasswords st)) -
         (PasswordManager.currentPage st - 1) * PasswordManager.entriesPerPage st) /\
    (1 <= List.length (PasswordManager.paginatedPasswords st))%nat /\
    ((PasswordManager.currentPage st < PasswordManager.totalPages st)%Z ->
     Z.of_nat (List.length (PasswordManager.paginatedPasswords st)) =
     PasswordManager.entriesPerPage st) /\
    (forall p, In p (PasswordManager.paginatedPasswords st) ->
               In p (PasswordManager.filteredPasswords st)).
Proof.
  intros st o Hallowed Hcur.
  assert (Hper : (0 < PasswordManager.entriesPerPage st)%Z)
    by (rewrite Hallowed; apply entriesNumber_pos).
  pose proof (start_before_end st Hper Hcur) as Hstart.
  pose proof (totalPages_bounds st Hper) as Hb.
  rewrite paginated_window by lia.
  assert (Hlen : Z.of_nat (List.length
                   (firstn (Z.to_nat (PasswordManager.entriesPerPage st))
                      (skipn (Z.to_nat ((PasswordManager.currentPage st - 1) *
                                        PasswordManager.entriesPerPage st))
                         (PasswordManager.filteredPasswords st)))) =
                 Z.min (PasswordManager.entriesPerPage st)
                   (Z.of_nat (List.length (PasswordManager.filteredPasswords st)) -
                    (PasswordManager.currentPage st - 1) *
                    PasswordManager.entriesPerPage st)).
  { rewrite length_firstn, length_skipn. nia. }
  split; [exact Hlen|]. split; [lia|]. split; [intros Hinner; nia|].
  intros p Hp. apply In_firstn in Hp.
  rewrite <- (firstn_skipn
                (Z.to_nat ((PasswordManager.currentPage st - 1) *
                           PasswordManager.entriesPerPage st))
                (PasswordManager.filteredPasswords st)).
  apply in_or_app. right. exact Hp.
Qed.

Lemma page_sizes_witness :
  let st := PasswordManager.handleEntriesPerPageChange PasswordManager.Show10
              (PasswordManager.set_passwords
                 [Password.mk "a" "Slack" "ann" "x" "Active" None None;
                  Password.mk "b" "Gmail" "bob" "y" "Active" None None;
                  Password.mk "c" "Slack" "cy" "z" "Active" None None]
                 (PasswordManager.initialState None)) in
  (1 <= List.length (PasswordManager.paginatedPasswords st))%nat.
Proof.
  intros st.
  destruct (page_sizes st PasswordManager.Show10 eq_refl) as [_ [Hone _]].
  - vm_compute. split; intros H; discriminate H.
  - exact Hone.
Defined.

Lemma firstn_add {A : Type} (a b : nat) (l : list A) :
  firstn (a + b) l = firstn a l ++ firstn b (skipn a l).
Proof.
  revert l. induction a as [|a IH]; intros l; [reflexivity|].
  destruct l as [|x l]; cbn [Nat.add firstn skipn app].
  - destruct b; reflexivity.
  - rewrite IH. reflexivity.
Qed.

(** Consecutive windows of [per] elements, put end to end. *)
Lemma windows_concat {A : Type} (per n : nat) (l : list A) :
  concat (map (fun i => firstn per (skipn ((i - 1) * per) l)) (seq 1 n)) =
  firstn (n * per) l.
Proof.
  induction n as [|n IH]; [reflexivity|].
  rewrite seq_S, map_app, concat_app, IH. cbn [map concat].
  rewrite app_nil_r.
  replace (1 + n - 1)%nat with n by lia.
  replace (S n * per)%nat with (n * per + per)%nat by lia.
  symmetry. apply firstn_add.
Qed.

Lemma pageAt_window (st : PasswordManager.State) (i : nat) :
  (0 < PasswordManager.entriesPerPage st)%Z ->
  (1 <= i)%nat ->
  pageAt st i =
  firstn (Z.to_nat (PasswordManager.entriesPerPage st))
    (skipn ((i - 1) * Z.to_nat (PasswordManager.entriesPerPage st))
       (PasswordManager.filteredPasswords st)).
Proof.
  intros Hper Hi. unfold pageAt.
  rewrite paginated_window; [|cbn [PasswordManager.currentPage
    PasswordManager.set_currentPage]; lia | exact Hper].
  change (PasswordManager.entriesPerPage
            (PasswordManager.set_currentPage (Z.of_nat i) st))
    with (PasswordManager.entriesPerPage st).
  change (PasswordManager.currentPage
            (PasswordManager.set_currentPage (Z.of_nat i) st))
    with (Z.of_nat i).
  change (PasswordManager.filteredPasswords
            (PasswordManager.set_currentPage (Z.of_nat i) st))
    with (PasswordManager.filteredPasswords st).
  f_equal. f_equal. nia.
Qed.

(** With an allowed page size, the pages 1 to pageCount put end to end are
    the filtered list: every matching record is on exactly one page, in the
    order of the list. *)
Theorem pages_cover_filtered_list :
  forall (st : PasswordManager.State) (o : PasswordManager.EntriesOption),
    PasswordManager.entriesPerPage st = PasswordManager.entriesNumber o ->
    concat (map (pageAt st) (seq 1 (Z.to_nat (PasswordManager.totalPages st)))) =
    PasswordManager.filteredPasswords st.
Proof.
  intros st o Hallowed.
  assert (Hper : (0 < PasswordManager.entriesPerPage st)%Z)
    by (rewrite Hallowed; apply entriesNumber_pos).
  pose proof (totalPages_bounds st Hper) as Hb.
  rewrite (map_ext_in _
             (fun i => firstn (Z.to_nat (PasswordManager.entriesPerPage st))
                         (skipn ((i - 1) * Z.to_nat (PasswordManager.entriesPerPage st))
                            (PasswordManager.filteredPasswords st)))).
  - rewrite windows_concat. apply firstn_all2. nia.
  - intros i Hi. apply in_seq in Hi. apply pageAt_window; [exact Hper | lia].
Qed.

Lemma pages_cover_witness :
  let st := PasswordManager.handleEntriesPerPageChange PasswordManager.Show10
              (PasswordManager.set_passwords
                 [Password.mk "a" "Slack" "ann" "x" "Active" None None;
                  Password.mk "b" "Gmail" "bob" "y" "Active" None None]
                 (PasswordManager.initialState None)) in
  concat (map (pageAt st) (seq 1 (Z.to_nat (PasswordManager.totalPages st)))) =
  PasswordManager.filteredPasswords st.
Proof.
  intros st. apply (pages_cover_filtered_list st PasswordManager.Show10). reflexivity.
Defined.

(* ===================================================================== *)
(** ** What every reachable state satisfies *)
(* ===================================================================== *)

Lemma pagerInvariant_fields (st st' : PasswordManager.State) :
  PasswordManager.passwords st' = PasswordManager.passwords st ->
  PasswordManager.searchQuery st' = PasswordManager.searchQuery st ->
  PasswordManager.platformFilter st' = PasswordManager.platformFilter st ->
  PasswordManager.currentPage st' = PasswordManager.currentPage st ->
  PasswordManager.entriesPerPage st' = PasswordManager.entriesPerPage st ->
  pagerInvariant st -> pagerInvariant st'.
Proof.
  intros Hp Hq Hc Hpage Hper.
  unfold pagerInvariant, PasswordManager.totalPages, PasswordManager.filteredPasswords.
  rewrite Hp, Hq, Hc, Hpage, Hper. tauto.
Qed.

Lemma pagerInvariant_page_one (st : PasswordManager.State) :
  (exists o, PasswordManager.entriesPerPage st = PasswordManager.entriesNumber o) ->
  PasswordManager.currentPage st = 1%Z ->
  pagerInvariant st.
Proof.
  intros [o Ho] Hone. split; [exists o; exact Ho|].
  assert (Hper : (0 < PasswordManager.entriesPerPage st)%Z)
    by (rewrite Ho; apply entriesNumber_pos).
  destruct (PasswordManager.filteredPasswords st) as [|p l] eqn:Hf.
  - right. auto.
  - left. split; [discriminate|].
    apply (page_one_in_range st Hper Hone). rewrite Hf. discriminate.
Qed.

Lemma pagerInvariant_previous (st : PasswordManager.State) :
  pagerInvariant st -> pagerInvariant (PasswordManager.clickPrevious st).
Proof.
  intros Hinv. unfold PasswordManager.clickPrevious, PasswordManager.previousDisabled.
  destruct (Z.eqb_spec (PasswordManager.currentPage st) 1) as [_ | Hne]; [exact Hinv|].
  destruct Hinv as [Hallowed Hpage]. split; [exact Hallowed|].
  unfold PasswordManager.previousPage.
  change (PasswordManager.filteredPasswords (PasswordManager.set_currentPage ?v st))
    with (PasswordManager.filteredPasswords st).
  change (PasswordManager.totalPages (PasswordManager.set_currentPage ?v st))
    with (PasswordManager.totalPages st).
  cbn [PasswordManager.currentPage PasswordManager.set_currentPage].
  destruct Hpage as [[Hsome Hrange] | [Hnone Hcur]].
  - left. split; [exact Hsome | lia].
  - right. split; [exact Hnone | lia].
Qed.

Lemma pagerInvariant_next (st : PasswordManager.State) :
  pagerInvariant st -> pagerInvariant (PasswordManager.clickNext st).
Proof.
  intros Hinv. unfold PasswordManager.clickNext, PasswordManager.nextDisabled.
  destruct (Z.eqb_spec (PasswordManager.currentPage st) (PasswordManager.totalPages st))
    as [_ | Hne]; [exact Hinv|].
  destruct Hinv as [[o Ho] Hpage]. split; [exists o; exact Ho|].
  assert (Hper : (0 < PasswordManager.entriesPerPage st)%Z)
    by (rewrite Ho; apply entriesNumber_pos).
  unfold PasswordManager.nextPage.
  change (PasswordManager.filteredPasswords (PasswordManager.set_currentPage ?v st))
    with (PasswordManager.filteredPasswords st).
  change (PasswordManager.totalPages (PasswordManager.set_currentPage ?v st))
    with (PasswordManager.totalPages st).
  cbn [PasswordManager.currentPage PasswordManager.set_currentPage].
  destruct Hpage as [[Hsome Hrange] | [Hnone Hcur]].
  - left. split; [exact Hsome | lia].
  - right. split; [exact Hnone|].
    pose proof (totalPages_empty st Hper Hnone) as Hzero. lia.
Qed.

Lemma pagerInvariant_handle (e : PasswordScreen.Event) (st : PasswordManager.State) :
  pagerInvariant st -> pagerInvariant (PasswordScreen.handle e st).
Proof.
  intros Hinv. destruct e; cbn [PasswordScreen.handle].
  - unfold PasswordManager.setSearchQuery.
    destruct (String.eqb q (PasswordManager.searchQuery st)); [exact Hinv|].
    apply pagerInvariant_page_one; [exact (proj1 Hinv) | reflexivity].
  - unfold PasswordManager.setPlatformFilter.
    destruct (String.eqb c (PasswordManager.platformFilter st)); [exact Hinv|].
    apply pagerInvariant_page_one; [exact (proj1 Hinv) | reflexivity].
  - apply pagerInvariant_page_one; [exists o; reflexivity | reflexivity].
  - apply pagerInvariant_previous, Hinv.
  - apply pagerInvariant_next, Hinv.
  - apply (pagerInvariant_fields st); auto.
  - apply (pagerInvariant_fields st); auto.
  - apply (pagerInvariant_fields st); auto.
  - apply (pagerInvariant_fields st); auto.
  - apply (pagerInvariant_fields st); auto.
  - apply (pagerInvariant_fields st); auto.
  - apply pagerInvariant_page_one; [exact (proj1 Hinv) | reflexivity].
  - apply (pagerInvariant_fields st); auto.
  - apply (pagerInvariant_fields st); auto.
Qed.

Section Reachable.
Context {W : Type} {FS : Firestore W}.

Lemma pagerInvariant_fetch (w : W) (st : PasswordManager.State) :
  pagerInvariant st -> pagerInvariant (snd (PasswordManager.fetchPasswords (w, st))).
Proof.
  intros Hinv. unfold PasswordManager.fetchPasswords.
  destruct (PasswordManager.user st) as [u|]; [|exact Hinv].
  destruct (getDocs (PasswordManager.passwordsPath u) w) as [[docs|] w']; cbn [snd].
  - apply pagerInvariant_page_one; [exact (proj1 Hinv) | reflexivity].
  - apply (pagerInvariant_fields st); auto.
Qed.

Lemma pagerInvariant_handleFormSubmit (v : PasswordForm.t) (w : W)
    (st : PasswordManager.State) :
  pagerInvariant st ->
  pagerInvariant (snd (PasswordManager.handleFormSubmit v (w, st))).
Proof.
  intros Hinv. unfold PasswordManager.handleFormSubmit.
  destruct (PasswordManager.user st) as [u|]; [|exact Hinv].
  destruct (PasswordManager.editingPassword st) as [editing|].
  - destruct (updateDoc _ _ _ w) as [[r|] w'].
    + match goal with
      | |- context [PasswordManager.fetchPasswords (?a, ?b)] =>
          pose proof (pagerInvariant_fetch a b) as Hfetch;
          destruct (PasswordManager.fetchPasswords (a, b)) as [w'' st2]
      end.
      cbn [snd] in *. apply (pagerInvariant_fields st2); try reflexivity.
      apply Hfetch. apply (pagerInvariant_fields st); auto.
    + cbn [snd]. apply (pagerInvariant_fields st); auto.
  - destruct (addDoc _ _ w) as [[r|] w'].
    + match goal with
      | |- context [PasswordManager.fetchPasswords (?a, ?b)] =>
          pose proof (pagerInvariant_fetch a b) as Hfetch;
          destruct (PasswordManager.fetchPasswords (a, b)) as [w'' st2]
      end.
      cbn [snd] in *. apply (pagerInvariant_fields st2); try reflexivity.
      apply Hfetch. apply (pagerInvariant_fields st); auto.
    + cbn [snd]. apply (pagerInvariant_fields st); auto.
Qed.

Lemma pagerInvariant_submit (v : PasswordForm.t) (w : W) (st : PasswordManager.State) :
  pagerInvariant st -> pagerInvariant (snd (PasswordManager.submit v (w, st))).
Proof.
  intros Hinv. unfold PasswordManager.submit.
  destruct (passwordSchema v) as [|i rest].
  - apply pagerInvariant_handleFormSubmit. apply (pagerInvariant_fields st); auto.
  - cbn [snd]. apply (pagerInvariant_fields st); auto.
Qed.

Lemma pagerInvariant_handleDelete (id : string) (w : W) (st : PasswordManager.State) :
  pagerInvariant st -> pagerInvariant (snd (PasswordManager.handleDelete id (w, st))).
Proof.
  intros Hinv. unfold PasswordManager.handleDelete.
  destruct (PasswordManager.user st) as [u|]; [|exact Hinv].
  destruct (deleteDoc _ _ w) as [[r|] w'].
  - apply pagerInvariant_fetch. apply (pagerInvariant_fields st); auto.
  - cbn [snd]. apply (pagerInvariant_fields st); auto.
Qed.

End Reachable.

Lemma reachable_pagerInvariant :
  forall (W : Type) (FS : Firestore W) (ws : W * PasswordManager.State),
    PasswordScreen.reachable ws -> pagerInvariant (snd ws).
Proof.
  intros W FS ws Hreach. induction Hreach as
    [u w | e w st _ IH | [w st] _ IH | v [w st] _ IH | id [w st] _ IH | w w' st _ IH].
  - apply pagerInvariant_page_one; [exists PasswordManager.Show50|]; reflexivity.
  - apply pagerInvariant_handle, IH.
  - apply pagerInvariant_fetch, IH.
  - apply pagerInvariant_submit, IH.
  - apply pagerInvariant_handleDelete, IH.
  - exact IH.
Qed.

(** In every state the component can reach, over any store, the page size is
    one of the five and the current page is between 1 and the page count,
    or, when nothing matches, 0 or 1. *)
Theorem reachable_pager_invariant :
  forall (W : Type) (FS : Firestore W) (ws : W * PasswordManager.State),
    PasswordScreen.reachable ws -> pagerInvariant (snd ws).
Proof.
  intros W FS ws Hreach. induction Hreach as
    [u w | e w st _ IH | [w st] _ IH | v [w st] _ IH | id [w st] _ IH | w w' st _ IH].
  - apply pagerInvariant_page_one; [exists PasswordManager.Show50|]; reflexivity.
  - apply pagerInvariant_handle, IH.
  - apply pagerInvariant_fetch, IH.
  - apply pagerInvariant_submit, IH.
  - apply pagerInvariant_handleDelete, IH.
  - exact IH.
Qed.

Lemma reachable_pager_witness :
  pagerInvariant
    (snd (PasswordManager.handleDelete "a"
            (PasswordManager.fetchPasswords
               (tt, PasswordManager.initialState (Some (PasswordManager.mkUser "u1")))))).
Proof.
  apply (reachable_pager_invariant unit offline).
  apply PasswordScreen.reach_delete, PasswordScreen.reach_fetch,
    PasswordScreen.reach_mount.
Defined.

(** In a reachable state that is not loading, the table says "No passwords
    found." exactly when no loaded record passes the search and the filter;
    otherwise it shows rows. *)
Theorem no_rows_only_when_nothing_matches :
  forall (W : Type) (FS : Firestore W) (ws : W * PasswordManager.State),
    PasswordScreen.reachable ws ->
    PasswordManager.isLoading (snd ws) = false ->
    (PasswordManager.renderTableBody (snd ws) =
       PasswordManager.NoneFound "No passwords found." <->
     PasswordManager.filteredPasswords (snd ws) = []) /\
    (PasswordManager.filteredPasswords (snd ws) <> [] ->
     exists rows, rows <> [] /\
                  PasswordManager.renderTableBody (snd ws) = PasswordManager.Rows rows).
Proof.
  intros W FS [w st] Hreach Hloaded. cbn [snd] in *.
  pose proof (reachable_pagerInvariant W FS (w, st) Hreach) as [[o Ho] Hpage].
  cbn [snd] in *.
  unfold PasswordManager.renderTableBody. rewrite Hloaded.
  destruct Hpage as [[Hsome Hrange] | [Hnone Hcur]].
  - assert (Hone : (1 <= List.length (PasswordManager.paginatedPasswords st))%nat).
    { apply page_not_empty; [rewrite Ho; apply entriesNumber_pos | exact Hrange]. }
    destruct (PasswordManager.paginatedPasswords st) as [|p ps] eqn:Hpg;
      [cbn in Hone; lia|].
    split.
    + split; [discriminate | intros Hempty; contradiction].
    + intros _. exists (map (PasswordManager.renderRow (PasswordManager.visiblePasswords st))
                          (p :: ps)).
      split; [discriminate | reflexivity].
  - assert (Hpg : PasswordManager.paginatedPasswords st = []).
    { unfold PasswordManager.paginatedPasswords. cbv zeta. rewrite Hnone.
      apply slice_nil. }
    rewrite Hpg. split.
    + split; [intros _; exact Hnone | reflexivity].
    + intros Hsome. contradiction.
Qed.

Lemma no_rows_witness :
  PasswordManager.renderTableBody
    (snd (PasswordManager.fetchPasswords
            (tt, PasswordManager.initialState (Some (PasswordManager.mkUser "u1"))))) =
  PasswordManager.NoneFound "No passwords found.".
Proof.
  destruct (no_rows_only_when_nothing_matches unit offline
              (PasswordManager.fetchPasswords
                 (tt, PasswordManager.initialState (Some (PasswordManager.mkUser "u1")))))
    as [[_ Hnone] _].
  - apply PasswordScreen.reach_fetch, PasswordScreen.reach_mount.
  - reflexivity.
  - apply Hnone. reflexivity.
Defined.

(* ===================================================================== *)
(** ** Tags through the form *)
(* ===================================================================== *)

Lemma Substring_widen (q s l r : string) :
  Substring q s -> Substring q (l ++ s ++ r).
Proof.
  intros [pre [post ->]]. exists (l ++ pre)%string, (post ++ r)%string.
  rewrite !string_append_assoc. reflexivity.
Qed.

Lemma trim_no_comma (seg : string) :
  JS.includes seg "," = false -> JS.includes (JS.trim seg) "," = false.
Proof.
  intros Hseg. destruct (JS.includes (JS.trim seg) ",") eqn:Htrim; [|reflexivity].
  apply includes_spec in Htrim.
  destruct (trim_decompose seg) as [l [r [Hdec _]]].
  apply (Substring_widen _ _ l r) in Htrim. rewrite <- Hdec in Htrim.
  apply includes_spec in Htrim. congruence.
Qed.

Lemma trim_idempotent (s : string) : JS.trim (JS.trim s) = JS.trim s.
Proof.
  destruct (trim_tight s) as [Hhead Hlast].
  unfold JS.trim at 1. rewrite (trimStart_tight _ Hhead). apply trimEnd_tight, Hlast.
Qed.

Lemma tagsArray_In (input : option string) (tag : string) :
  In tag (tagsArray input) ->
  tag <> EmptyString /\
  exists s seg, input = Some s /\ In seg (JS.split_comma s) /\ tag = JS.trim seg.
Proof.
  destruct input as [s|]; [|intros []].
  unfold tagsArray. destruct (JS.truthy s); [|intros []].
  rewrite filter_In, in_map_iff. intros [[seg [Htrim Hseg]] Htruthy].
  split; [intros ->; discriminate|]. exists s, seg. auto.
Qed.

(** Every tag the form stores is not empty, holds no comma, and neither
    starts nor ends with white space. *)
Theorem stored_tags_are_clean :
  forall (input : option string) (tag : string),
    In tag (tagsArray input) ->
    tag <> EmptyString /\
    JS.includes tag "," = false /\
    JS.trim tag = tag /\
    (forall c r, tag = String c r -> JS.isWhiteSpace c = false) /\
    (forall t c, tag = (t ++ String c EmptyString)%string -> JS.isWhiteSpace c = false).
Proof.
  intros input tag Hin.
  destruct (tagsArray_In input tag Hin) as [Hne [s [seg [_ [Hseg ->]]]]].
  split; [exact Hne|]. split.
  - apply trim_no_comma.
    pose proof (split_comma_no_comma s) as Hall.
    rewrite List.Forall_forall in Hall. apply Hall, Hseg.
  - split; [apply trim_idempotent | apply trim_tight].
Qed.

Lemma stored_tags_witness :
  JS.includes "personal" "," = false /\ JS.trim "personal" = "personal".
Proof.
  destruct (stored_tags_are_clean (Some " work , personal,, ") "personal")
    as [_ [Hcomma [Htrim _]]].
  - right. left. reflexivity.
  - split; assumption.
Defined.

Lemma cleanTag_spec (t : string) :
  cleanTag t = true <->
  t <> EmptyString /\ JS.includes t "," = false /\ JS.trim t = t.
Proof.
  unfold cleanTag. rewrite !andb_true_iff, negb_true_iff, String.eqb_eq.
  destruct t; cbn [JS.truthy]; split; intros H; try tauto.
  - destruct H as [[H _] _]. discriminate.
  - repeat split; try tauto. discriminate.
Qed.

Lemma no_comma_app (a b : string) :
  JS.includes a "," = false -> JS.includes b "," = false ->
  JS.includes (a ++ b) "," = false.
Proof.
  intros Ha Hb. induction a as [|c a IH]; [exact Hb|].
  rewrite append_String. apply no_comma_cons. apply no_comma_cons in Ha.
  split; [tauto | apply IH; tauto].
Qed.

(** The text of clean tags joined by ", " splits back at the commas, each
    later segment led by the space. *)
Lemma split_comma_join_clean (ts : list string) (pre : string) :
  Forall (fun t => cleanTag t = true) ts ->
  JS.includes pre "," = false ->
  JS.split_comma (pre ++ JS.join ", " ts) =
  match ts with
  | [] => [pre]
  | t :: rest => (pre ++ t)%string :: map (String " "%char) rest
  end.
Proof.
  intros Hclean. revert pre.
  induction Hclean as [|t rest Ht Hrest IH]; intros pre Hpre.
  - cbn [JS.join]. rewrite append_nil_r. apply split_comma_whole, Hpre.
  - apply cleanTag_spec in Ht. destruct Ht as [_ [Hcomma _]].
    destruct rest as [|t' rest'].
    + cbn [JS.join map]. apply split_comma_whole, no_comma_app; assumption.
    + change (JS.join ", " (t :: t' :: rest'))
        with (t ++ String ","%char (String " "%char EmptyString ++
                                   JS.join ", " (t' :: rest')))%string.
      rewrite <- string_append_assoc.
      rewrite split_comma_at_comma by (apply no_comma_app; assumption).
      rewrite (IH (String " "%char EmptyString)) by reflexivity.
      reflexivity.
Qed.

Lemma trim_after_space (s : string) : JS.trim (String " "%char s) = JS.trim s.
Proof. reflexivity. Qed.

Lemma tagsArray_of_joined (ts : list string) :
  Forall (fun t => cleanTag t = true) ts ->
  tagsArray (Some (JS.join ", " ts)) = ts.
Proof.
  intros Hclean. unfold tagsArray.
  pose proof (split_comma_join_clean ts EmptyString Hclean eq_refl) as Hsplit.
  rewrite append_Empty in Hsplit. rewrite Hsplit.
  destruct Hclean as [|t rest Ht Hrest]; [reflexivity|].
  rewrite append_Empty.
  assert (Hjoin : JS.truthy (JS.join ", " (t :: rest)) = true).
  { apply cleanTag_spec in Ht. destruct Ht as [Hne _].
    destruct t as [|c t]; [contradiction|].
    destruct rest; reflexivity. }
  rewrite Hjoin. cbn [map List.filter].
  pose proof (proj1 (cleanTag_spec t) Ht) as [Hne [_ Htrim]].
  rewrite Htrim. destruct t as [|c t]; [contradiction|]. cbn [JS.truthy].
  f_equal. clear - Hrest.
  induction Hrest as [|x xs Hx _ IH]; [reflexivity|].
  cbn [map List.filter]. rewrite trim_after_space.
  apply cleanTag_spec in Hx. destruct Hx as [Hne [_ Htrim]].
  rewrite Htrim. destruct x as [|c x]; [contradiction|]. cbn [JS.truthy].
  f_equal. exact IH.
Qed.

Lemma tagsField_round_trip (tags : option (list string)) :
  Forall (fun t => cleanTag t = true) (JS.orEmpty tags) ->
  tagsArray (Some (PasswordScreen.tagsField tags)) = JS.orEmpty tags.
Proof.
  intros Hclean. destruct tags as [ts|]; [|reflexivity].
  cbn [JS.orEmpty] in *. unfold PasswordScreen.tagsField.
  pose proof (tagsArray_of_joined ts Hclean) as Hround.
  destruct (JS.truthy (JS.join ", " ts)) eqn:Htruthy; [exact Hround|].
  rewrite <- Hround. unfold tagsArray. rewrite Htruthy. reflexivity.
Qed.

(** Opening the edit form fills the tags field with the stored tags joined
    by ", "; saving that text stores the same tags again, whenever the
    stored tags are ASCII text and clean, as the tags the form itself stores
    from ASCII input are. *)
Theorem tags_survive_edit :
  forall tags : option (list string),
    allAscii (JS.orEmpty tags) ->
    Forall (fun t => cleanTag t = true) (JS.orEmpty tags) ->
    tagsArray (Some (PasswordScreen.tagsField tags)) = JS.orEmpty tags.
Proof.
  intros tags _ Hclean. destruct tags as [ts|]; [|reflexivity].
  cbn [JS.orEmpty] in *. unfold PasswordScreen.tagsField.
  pose proof (tagsArray_of_joined ts Hclean) as Hround.
  destruct (JS.truthy (JS.join ", " ts)) eqn:Htruthy; [exact Hround|].
  rewrite <- Hround. unfold tagsArray. rewrite Htruthy. reflexivity.
Qed.

Lemma tags_survive_edit_witness :
  tagsArray (Some (PasswordScreen.tagsField (Some ["work"; "my bank"; "2fa"]))) =
  ["work"; "my bank"; "2fa"].
Proof.
  apply (tags_survive_edit (Some ["work"; "my bank"; "2fa"])).
  - repeat constructor.
  - repeat constructor.
Defined.

(** Tags that are not clean do not survive: a stored tag with a comma comes
    back as two. *)
Example tag_with_comma_is_split :
  tagsArray (Some (PasswordScreen.tagsField (Some ["a,b"]))) = ["a"; "b"].
Proof. reflexivity. Qed.

(** Editing a record and saving the form as it opened writes the record's
    own fields back, with absent tags and custom fields written as empty
    lists, whenever the stored tags are ASCII text and clean. *)
Theorem edit_unchanged_writes_same_record :
  forall p : Password.t,
    allAscii (JS.orEmpty (Password.tags p)) ->
    Forall (fun t => cleanTag t = true) (JS.orEmpty (Password.tags p)) ->
    PasswordManager.fromDoc
      (Password.id p, PasswordManager.dataToSave (PasswordScreen.editValues p)) =
    Password.mk (Password.id p) (Password.appName p) (Password.username p)
      (Password.password p) (Password.status p)
      (Some (JS.orEmpty (Password.tags p)))
      (Some (JS.orEmpty (Password.customFields p))).
Proof.
  intros p _ Hclean. unfold PasswordManager.fromDoc, PasswordManager.dataToSave,
    PasswordScreen.editValues.
  cbn [fst snd PasswordDoc.appName PasswordDoc.username PasswordDoc.password
       PasswordDoc.status PasswordDoc.tags PasswordDoc.customFields
       PasswordForm.appName PasswordForm.username PasswordForm.password
       PasswordForm.status PasswordForm.tags PasswordForm.customFields JS.orEmpty].
  rewrite (tagsField_round_trip _ Hclean). reflexivity.
Qed.

Lemma edit_unchanged_witness :
  let p := Password.mk "p1" "Gmail" "ann" "s3cret" "Active"
             (Some ["mail"; "work"]) (Some [mkCustomField "pin" "1234"]) in
  PasswordManager.fromDoc
    (Password.id p, PasswordManager.dataToSave (PasswordScreen.editValues p)) = p.
Proof.
  intros p. apply (edit_unchanged_writes_same_record p).
  - repeat constructor.
  - repeat constructor.
Defined.

(* ===================================================================== *)
(** ** The store actions, call by call *)
(* ===================================================================== *)

Section StoreCalls.
Context {W : Type} {FS : Firestore W}.

Lemma fetch_calls (w : W) (st : PasswordManager.State) :
  PasswordManager.storeCalls (snd (PasswordManager.fetchPasswords (w, st))) =
  PasswordManager.storeCalls st ++
  match PasswordManager.user st with
  | Some u => [CallGetDocs (PasswordManager.passwordsPath u)]
  | None => []
  end.
Proof.
  unfold PasswordManager.fetchPasswords.
  destruct (PasswordManager.user st) as [u|]; [|cbn [snd]; rewrite app_nil_r; reflexivity].
  destruct (getDocs (PasswordManager.passwordsPath u) w) as [[docs|] w']; reflexivity.
Qed.

Lemma fetch_user (w : W) (st : PasswordManager.State) :
  PasswordManager.user (snd (PasswordManager.fetchPasswords (w, st))) =
  PasswordManager.user st.
Proof.
  unfold PasswordManager.fetchPasswords.
  destruct (PasswordManager.user st) as [u|] eqn:Hu; [|exact Hu].
  destruct (getDocs (PasswordManager.passwordsPath u) w) as [[docs|] w']; exact Hu.
Qed.

Lemma handleFormSubmit_calls (v : PasswordForm.t) (w : W) (st : PasswordManager.State)
    (u : PasswordManager.User) :
  PasswordManager.user st = Some u ->
  PasswordManager.storeCalls (snd (PasswordManager.handleFormSubmit v (w, st))) =
  PasswordManager.storeCalls st ++
  mutationCall u st v ::
  (if mutationFulfilled w u st v then [CallGetDocs (PasswordManager.passwordsPath u)]
   else []).
Proof.
  intros Hu. unfold PasswordManager.handleFormSubmit, mutationCall, mutationFulfilled.
  rewrite Hu.
  destruct (PasswordManager.editingPassword st) as [editing|].
  - destruct (updateDoc _ _ _ w) as [[r|] w']; cbn [fst isFulfilled]; [|reflexivity].
    match goal with
    | |- context [PasswordManager.fetchPasswords (?a, ?b)] =>
        pose proof (fetch_calls a b) as Hfetch;
        destruct (PasswordManager.fetchPasswords (a, b)) as [w'' st2]
    end.
    cbn [snd] in *.
    change (PasswordManager.storeCalls (PasswordManager.closeDialog st2))
      with (PasswordManager.storeCalls st2).
    rewrite Hfetch.
    cbn [PasswordManager.user PasswordManager.storeCalls PasswordManager.toast
         PasswordManager.logCall].
    rewrite Hu, <- app_assoc. reflexivity.
  - destruct (addDoc _ _ w) as [[r|] w']; cbn [fst isFulfilled]; [|reflexivity].
    match goal with
    | |- context [PasswordManager.fetchPasswords (?a, ?b)] =>
        pose proof (fetch_calls a b) as Hfetch;
        destruct (PasswordManager.fetchPasswords (a, b)) as [w'' st2]
    end.
    cbn [snd] in *.
    change (PasswordManager.storeCalls (PasswordManager.closeDialog st2))
      with (PasswordManager.storeCalls st2).
    rewrite Hfetch.
    cbn [PasswordManager.user PasswordManager.storeCalls PasswordManager.toast
         PasswordManager.logCall].
    rewrite Hu, <- app_assoc. reflexivity.
Qed.

Lemma handleDelete_calls (id : string) (w : W) (st : PasswordManager.State)
    (u : PasswordManager.User) :
  PasswordManager.user st = Some u ->
  PasswordManager.storeCalls (snd (PasswordManager.handleDelete id (w, st))) =
  PasswordManager.storeCalls st ++
  CallDeleteDoc (PasswordManager.passwordsPath u) id ::
  (if isFulfilled (fst (deleteDoc (PasswordManager.passwordsPath u) id w))
   then [CallGetDocs (PasswordManager.passwordsPath u)] else []).
Proof.
  intros Hu. unfold PasswordManager.handleDelete. rewrite Hu.
  destruct (deleteDoc _ _ w) as [[r|] w']; cbn [fst isFulfilled]; [|reflexivity].
  rewrite fetch_calls.
  cbn [PasswordManager.user PasswordManager.storeCalls PasswordManager.toast
       PasswordManager.logCall].
  rewrite Hu, <- app_assoc. reflexivity.
Qed.

Lemma callsScoped_fetch (w : W) (st : PasswordManager.State) :
  callsScoped st (snd (PasswordManager.fetchPasswords (w, st))).
Proof.
  unfold callsScoped. rewrite fetch_calls.
  destruct (PasswordManager.user st) as [u|].
  - eexists. split; [reflexivity|]. split; [cbn; lia|]. repeat constructor.
  - exists []. split; [reflexivity|]. split; [cbn; lia | reflexivity].
Qed.

Lemma callsScoped_handleFormSubmit (v : PasswordForm.t) (w : W)
    (st : PasswordManager.State) :
  callsScoped st (snd (PasswordManager.handleFormSubmit v (w, st))).
Proof.
  unfold callsScoped. destruct (PasswordManager.user st) as [u|] eqn:Hu.
  - rewrite (handleFormSubmit_calls v w st u Hu).
    eexists. split; [reflexivity|]. split.
    + destruct (mutationFulfilled w u st v); cbn; lia.
    + constructor.
      * unfold mutationCall. destruct (PasswordManager.editingPassword st); reflexivity.
      * destruct (mutationFulfilled w u st v); repeat constructor.
  - unfold PasswordManager.handleFormSubmit. rewrite Hu. cbn [snd].
    exists []. split; [symmetry; apply app_nil_r|]. split; [cbn; lia | reflexivity].
Qed.

Lemma callsScoped_submit (v : PasswordForm.t) (w : W) (st : PasswordManager.State) :
  callsScoped st (snd (PasswordManager.submit v (w, st))).
Proof.
  unfold PasswordManager.submit. destruct (passwordSchema v) as [|i rest].
  - apply (callsScoped_handleFormSubmit v w (PasswordManager.set_formErrors [] st)).
  - cbn [snd]. exists []. split; [symmetry; apply app_nil_r|].
    split; [cbn; lia|]. destruct (PasswordManager.user st); [constructor | reflexivity].
Qed.

Lemma callsScoped_handleDelete (id : string) (w : W) (st : PasswordManager.State) :
  callsScoped st (snd (PasswordManager.handleDelete id (w, st))).
Proof.
  unfold callsScoped. destruct (PasswordManager.user st) as [u|] eqn:Hu.
  - rewrite (handleDelete_calls id w st u Hu).
    eexists. split; [reflexivity|]. split.
    + destruct (isFulfilled _); cbn; lia.
    + constructor; [reflexivity|]. destruct (isFulfilled _); repeat constructor.
  - unfold PasswordManager.handleDelete. rewrite Hu. cbn [snd].
    exists []. split; [symmetry; apply app_nil_r|]. split; [cbn; lia | reflexivity].
Qed.

End StoreCalls.

(** Whatever the store answers, a listing, a submission and a deletion make
    at most two store calls, each on the collection
    users/{uid}/passwords of the signed-in user, and none at all while
    nobody is signed in. *)
Theorem store_calls_stay_in_own_collection :
  forall (W : Type) (FS : Firestore W) (w : W) (st : PasswordManager.State),
    callsScoped st (snd (PasswordManager.fetchPasswords (w, st))) /\
    (forall v, callsScoped st (snd (PasswordManager.submit v (w, st)))) /\
    (forall id, callsScoped st (snd (PasswordManager.handleDelete id (w, st)))).
Proof.
  intros W FS w st. split; [apply callsScoped_fetch|]. split.
  - intros v. apply callsScoped_submit.
  - intros id. apply callsScoped_handleDelete.
Qed.

(** A valid submission by a signed-in user starts with one call, the update
    of the record being edited or, when none is, a creation, with the saved
    data; the list is fetched again after it exactly when the store accepted
    that call. *)
Theorem valid_submission_calls :
  forall (W : Type) (FS : Firestore W) (w : W) (st : PasswordManager.State)
         (u : PasswordManager.User) (v : PasswordForm.t),
    PasswordManager.user st = Some u ->
    passwordValid v ->
    PasswordManager.storeCalls (snd (PasswordManager.submit v (w, st))) =
    PasswordManager.storeCalls st ++
    mutationCall u st v ::
    (if mutationFulfilled w u st v then [CallGetDocs (PasswordManager.passwordsPath u)]
     else []).
Proof.
  intros W FS w st u v Hu Hvalid. unfold PasswordManager.submit.
  rewrite (proj2 (passwordSchema_valid v) Hvalid).
  apply (handleFormSubmit_calls v w (PasswordManager.set_formErrors [] st) u Hu).
Qed.

Lemma valid_submission_witness :
  let e := Password.mk "d1" "Gmail" "ann" "old" "Active" (Some ["mail"]) (Some []) in
  let st := snd (PasswordScreen.openEditDialog e
                   (PasswordManager.initialState (Some (PasswordManager.mkUser "u1")))) in
  let v := PasswordForm.mk "Gmail" "ann" "new" "Active" (Some "mail") (Some []) in
  PasswordManager.storeCalls (snd (PasswordManager.submit v (true, st))) =
  [CallUpdateDoc "users/u1/passwords" "d1"
     (PasswordDoc.mk "Gmail" "ann" "new" "Active" (Some ["mail"]) (Some []));
   CallGetDocs "users/u1/passwords"].
Proof.
  intros e st v.
  apply (valid_submission_calls bool online true st (PasswordManager.mkUser "u1") v).
  - reflexivity.
  - repeat split; try discriminate. left. reflexivity.
    constructor.
Defined.

Section AfterSuccess.
Context {W : Type} {FS : Firestore W}.

Lemma fetch_fulfilled (w w' : W) (st : PasswordManager.State)
    (u : PasswordManager.User) (docs : list (string * PasswordDoc.t)) :
  PasswordManager.user st = Some u ->
  getDocs (PasswordManager.passwordsPath u) w = (Fulfilled docs, w') ->
  PasswordManager.fetchPasswords (w, st) =
  (w', PasswordManager.set_isLoading false
         (PasswordManager.setPasswords (map PasswordManager.fromDoc docs)
            (PasswordManager.logCall (CallGetDocs (PasswordManager.passwordsPath u))
               (PasswordManager.set_isLoading true st)))).
Proof.
  intros Hu Hget. unfold PasswordManager.fetchPasswords. rewrite Hu, Hget. reflexivity.
Qed.

Lemma map_id_fromDoc (docs : list (string * PasswordDoc.t)) :
  map Password.id (map PasswordManager.fromDoc docs) = map fst docs.
Proof. rewrite map_map. reflexivity. Qed.

Lemma delete_then_listing (w w' w'' : W) (st : PasswordManager.State)
    (u : PasswordManager.User) (docs : list (string * PasswordDoc.t))
    (id : string) (r : unit) :
  PasswordManager.user st = Some u ->
  deleteDoc (PasswordManager.passwordsPath u) id w = (Fulfilled r, w') ->
  getDocs (PasswordManager.passwordsPath u) w' = (Fulfilled docs, w'') ->
  showsListing docs st (snd (PasswordManager.handleDelete id (w, st))) /\
  PasswordManager.toasts (snd (PasswordManager.handleDelete id (w, st))) =
    PasswordManager.toasts st ++ [PasswordManager.deleted].
Proof.
  intros Hu Hdel Hget. unfold PasswordManager.handleDelete. rewrite Hu, Hdel.
  rewrite (fetch_fulfilled w' w'' _ u docs) by assumption. cbn [snd].
  unfold showsListing. repeat split; try reflexivity. apply map_id_fromDoc.
Qed.

Lemma submit_then_listing (w w'' : W) (st : PasswordManager.State)
    (u : PasswordManager.User) (docs : list (string * PasswordDoc.t))
    (v : PasswordForm.t) :
  PasswordManager.user st = Some u ->
  passwordValid v ->
  mutationFulfilled w u st v = true ->
  getDocs (PasswordManager.passwordsPath u) (worldAfterMutation w u st v)
    = (Fulfilled docs, w'') ->
  showsListing docs st (snd (PasswordManager.submit v (w, st))) /\
  PasswordManager.isDialogOpen (snd (PasswordManager.submit v (w, st))) = false /\
  PasswordManager.editingPassword (snd (PasswordManager.submit v (w, st))) = None /\
  PasswordManager.formErrors (snd (PasswordManager.submit v (w, st))) = [].
Proof.
  intros Hu Hvalid Hok Hget. unfold PasswordManager.submit.
  rewrite (proj2 (passwordSchema_valid v) Hvalid).
  unfold PasswordManager.handleFormSubmit, mutationFulfilled, worldAfterMutation in *.
  cbn [PasswordManager.user PasswordManager.set_formErrors
       PasswordManager.editingPassword].
  rewrite Hu.
  destruct (PasswordManager.editingPassword st) as [editing|].
  - destruct (updateDoc _ _ _ w) as [[r|] wx]; cbn [fst snd isFulfilled] in *;
      [|discriminate].
    rewrite (fetch_fulfilled wx w'' _ u docs) by assumption. cbn [snd].
    unfold showsListing. repeat split; try reflexivity. apply map_id_fromDoc.
  - destruct (addDoc _ _ w) as [[r|] wx]; cbn [fst snd isFulfilled] in *;
      [|discriminate].
    rewrite (fetch_fulfilled wx w'' _ u docs) by assumption. cbn [snd].
    unfold showsListing. repeat split; try reflexivity. apply map_id_fromDoc.
Qed.

End AfterSuccess.

(** When the store accepts a deletion or a valid submission and then lists
    [docs], the screen shows that listing, each record under its document
    id, and not a local patch of the old list: on page 1, not loading, the
    eye toggles untouched; after a submission the dialog is closed. *)
Theorem accepted_change_shows_the_listing :
  forall (W : Type) (FS : Firestore W) (w w'' : W) (st : PasswordManager.State)
         (u : PasswordManager.User) (docs : list (string * PasswordDoc.t)),
    PasswordManager.user st = Some u ->
    (forall id r w',
        deleteDoc (PasswordManager.passwordsPath u) id w = (Fulfilled r, w') ->
        getDocs (PasswordManager.passwordsPath u) w' = (Fulfilled docs, w'') ->
        showsListing docs st (snd (PasswordManager.handleDelete id (w, st)))) /\
    (forall v,
        passwordValid v ->
        mutationFulfilled w u st v = true ->
        getDocs (PasswordManager.passwordsPath u) (worldAfterMutation w u st v)
          = (Fulfilled docs, w'') ->
        showsListing docs st (snd (PasswordManager.submit v (w, st))) /\
        PasswordManager.isDialogOpen (snd (PasswordManager.submit v (w, st))) = false /\
        PasswordManager.editingPassword (snd (PasswordManager.submit v (w, st))) = None).
Proof.
  intros W FS w w'' st u docs Hu. split.
  - intros id r w' Hdel Hget.
    apply (delete_then_listing w w' w'' st u docs id r Hu Hdel Hget).
  - intros v Hvalid Hok Hget.
    destruct (submit_then_listing w w'' st u docs v Hu Hvalid Hok Hget)
      as [Hshow [Hopen [Hedit _]]]. auto.
Qed.

Lemma accepted_change_witness :
  let st := PasswordManager.initialState (Some (PasswordManager.mkUser "u1")) in
  showsListing oneDocument st (snd (PasswordManager.handleDelete "d9" (true, st))).
Proof.
  intros st.
  destruct (accepted_change_shows_the_listing bool online true true st
              (PasswordManager.mkUser "u1") oneDocument eq_refl) as [Hdelete _].
  apply (Hdelete "d9" tt true); reflexivity.
Defined.

(* ===================================================================== *)
(** ** The eye toggles *)
(* ===================================================================== *)

(** A click on the eye of one record flips what that record's cell shows,
    between the password and the mask, and leaves the cell of every record
    with another id as it was; a second click undoes the first. *)
Theorem eye_toggles_one_record :
  forall (id : string) (st : PasswordManager.State),
    (forall p, Password.id p = id ->
       PasswordManager.secretCell
         (PasswordManager.visiblePasswords (PasswordManager.toggleVisibility id st)) p =
       if PasswordManager.isVisible (PasswordManager.visiblePasswords st) id
       then JS.repeat "•" 12 else Password.password p) /\
    (forall p, Password.id p <> id ->
       PasswordManager.secretCell
         (PasswordManager.visiblePasswords (PasswordManager.toggleVisibility id st)) p =
       PasswordManager.secretCell (PasswordManager.visiblePasswords st) p) /\
    (forall p,
       PasswordManager.secretCell
         (PasswordManager.visiblePasswords
            (PasswordManager.toggleVisibility id (PasswordManager.toggleVisibility id st))) p =
       PasswordManager.secretCell (PasswordManager.visiblePasswords st) p).
Proof.
  intros id st. split; [|split].
  - intros p <-. unfold PasswordManager.secretCell.
    rewrite toggleVisibility_same.
    destruct (PasswordManager.isVisible _ (Password.id p)); reflexivity.
  - intros p Hother. unfold PasswordManager.secretCell.
    rewrite toggleVisibility_other by congruence. reflexivity.
  - intros p. unfold PasswordManager.secretCell.
    destruct (string_dec id (Password.id p)) as [<- | Hother].
    + rewrite !toggleVisibility_same, negb_involutive. reflexivity.
    + rewrite !toggleVisibility_other by exact Hother. reflexivity.
Qed.

Lemma eye_toggles_witness :
  let p := Password.mk "p1" "Gmail" "ann" "s3cret" "Active" None None in
  PasswordManager.secretCell
    (PasswordManager.visiblePasswords
       (PasswordManager.toggleVisibility "p1" (PasswordManager.initialState None))) p =
  "s3cret".
Proof.
  intros p.
  destruct (eye_toggles_one_record "p1" (PasswordManager.initialState None))
    as [Hsame _].
  apply (Hsame p). reflexivity.
Defined.

Lemma masked_screen_witness :
  let st := PasswordManager.set_isLoading false
              (PasswordManager.set_passwords
                 [Password.mk "p1" "Gmail" "ann" "s3cret" "Active" None None]
                 (PasswordManager.initialState None)) in
  PasswordManager.renderTableBody
    (PasswordManager.set_passwords
       [Password.mk "p1" "Gmail" "ann" "another" "Active" None None] st) =
  PasswordManager.renderTableBody st.
Proof.
  intros st. apply (masked_table_ignores_secrets st).
  - repeat constructor.
  - repeat constructor.
Defined.

(* ===================================================================== *)
(** ** More on the dashboard *)
(* ===================================================================== *)

Lemma totalCount_set (o : JSObject.t) (k : string) (v : Z) :
  totalCount (JSObject.set o k v) =
  (totalCount o - default 0 (JSObject.get o k) + v)%Z.
Proof.
  unfold totalCount. induction o as [|[k' v'] o IH]; cbn [JSObject.set JSObject.get].
  - cbn. lia.
  - destruct (String.eqb k' k); simpl in *; lia.
Qed.

Lemma totalCount_bump (o : JSObject.t) (k : string) :
  totalCount (Dashboard.bump o k) = (totalCount o + 1)%Z.
Proof. unfold Dashboard.bump. rewrite totalCount_set. lia. Qed.

Lemma totalCount_counter (l : list string) (o : JSObject.t) :
  totalCount (fold_left Dashboard.bump l o) = (totalCount o + Z.of_nat (List.length l))%Z.
Proof.
  revert o. induction l as [|k l IH]; intros o; cbn [fold_left List.length].
  - lia.
  - rewrite IH, totalCount_bump. lia.
Qed.

Lemma frequency_positive (l : list string) (k : string) :
  In k l -> (1 <= frequency l k)%Z.
Proof.
  intros Hin. unfold frequency.
  apply (count_occ_In string_dec) in Hin. lia.
Qed.

Lemma counter_values_positive (l : list string) :
  Forall (fun e => (1 <= snd e)%Z) (fold_left Dashboard.bump l []).
Proof.
  rewrite counter_spec. apply List.Forall_forall. intros e He.
  apply in_map_iff in He. destruct He as [k [<- Hk]]. cbn [snd].
  apply frequency_positive, (proj1 (firstSeen_In k l)), Hk.
Qed.

(** For tags and platforms that are no names inherited from
    [Object.prototype]: the platform counts add up to the number of
    passwords, the tag counts to the number of tags on all records, and
    every count held is at least 1. *)
Theorem counts_add_up :
  forall (apiKeys : list ApiKey.t) (passwords : list Password.t) (notes : list Note.t),
    Forall (fun k => JSObject.plainKey k = true)
      (Dashboard.tagStream apiKeys passwords notes ++ map Password.appName passwords) ->
    totalCount (Dashboard.platformCounts (Dashboard.fetchData apiKeys passwords notes)) =
      Z.of_nat (Dashboard.countPasswords (Dashboard.fetchData apiKeys passwords notes)) /\
    totalCount (Dashboard.tagCounts (Dashboard.fetchData apiKeys passwords notes)) =
      Z.of_nat (List.length (Dashboard.tagStream apiKeys passwords notes)) /\
    Forall (fun e => (1 <= snd e)%Z)
      (Dashboard.platformCounts (Dashboard.fetchData apiKeys passwords notes)) /\
    Forall (fun e => (1 <= snd e)%Z)
      (Dashboard.tagCounts (Dashboard.fetchData apiKeys passwords notes)).
Proof.
  intros apiKeys passwords notes _.
  cbn [Dashboard.platformCounts Dashboard.tagCounts Dashboard.countPasswords
       Dashboard.fetchData].
  unfold Dashboard.allPlatforms, Dashboard.allTags.
  rewrite !totalCount_counter, length_map.
  repeat split; try apply counter_values_positive; reflexivity.
Qed.

Lemma counts_add_up_witness :
  totalCount
    (Dashboard.platformCounts
       (Dashboard.fetchData []
          [Password.mk "p1" "Gmail" "ann" "x" "Active" (Some ["mail"]) None;
           Password.mk "p2" "Gmail" "bob" "y" "Active" None None] [])) = 2%Z.
Proof.
  destruct (counts_add_up []
          [Password.mk "p1" "Gmail" "ann" "x" "Active" (Some ["mail"]) None;
           Password.mk "p2" "Gmail" "bob" "y" "Active" None None] [])
    as [Hplatforms _].
  - repeat constructor.
  - exact Hplatforms.
Defined.

Lemma filter_partition_perm {A : Type} (f : A -> bool) (l : list A) :
  Permutation (List.filter f l ++ List.filter (fun x => negb (f x)) l) l.
Proof.
  induction l as [|x l IH]; cbn [List.filter]; [reflexivity|].
  destruct (f x); cbn [negb app].
  - apply perm_skip, IH.
  - rewrite <- Permutation_middle. apply perm_skip, IH.
Qed.

Lemma order_perm (names : list string) : Permutation (JSObject.order names) names.
Proof.
  unfold JSObject.order. rewrite ascendingIndex_perm. apply filter_partition_perm.
Qed.

Lemma NoDup_firstn {A : Type} (n : nat) (l : list A) :
  List.NoDup l -> List.NoDup (firstn n l).
Proof.
  intros Hl. rewrite <- (firstn_skipn n l) in Hl.
  apply (List.NoDup_app_remove_r _ _ Hl).
Qed.

Lemma topFiveInKeyOrder_isTopFive (l : list string) :
  isTopFive l (topFiveInKeyOrder l).
Proof.
  destruct (topFiveInKeyOrder_sound l) as [_ [Hdesc [Hvalues Htop]]].
  unfold isTopFive. split; [|split; [|auto]].
  - unfold topFiveInKeyOrder.
    rewrite length_firstn, (Permutation_length (sort_perm _ _)), length_map,
      (Permutation_length (order_perm _)). reflexivity.
  - unfold topFiveInKeyOrder. rewrite <- firstn_map. apply NoDup_firstn.
    apply (Permutation.Permutation_NoDup
             (Permutation_sym (Permutation_map Dashboard.name (sort_perm _ _)))).
    rewrite map_map. cbn [Dashboard.name]. rewrite map_id.
    apply (Permutation.Permutation_NoDup (Permutation_sym (order_perm _))).
    apply firstSeen_NoDup.
Qed.

(** For tags and platforms that are no names inherited from
    [Object.prototype], both charts of the dashboard are top-five lists: as
    many entries as distinct names, at most five, no name twice, in
    descending order of count, each count the number of occurrences, and no
    name left out that occurs more often than a listed one. *)
Theorem charts_are_top_five :
  forall (apiKeys : list ApiKey.t) (passwords : list Password.t) (notes : list Note.t),
    Forall (fun k => JSObject.plainKey k = true)
      (Dashboard.tagStream apiKeys passwords notes ++ map Password.appName passwords) ->
    isTopFive (Dashboard.tagStream apiKeys passwords notes)
      (Dashboard.tagChartData (Dashboard.fetchData apiKeys passwords notes)) /\
    isTopFive (map Password.appName passwords)
      (Dashboard.platformChartData (Dashboard.fetchData apiKeys passwords notes)).
Proof.
  intros apiKeys passwords notes _. split.
  - unfold Dashboard.tagChartData. cbn [Dashboard.tagCounts Dashboard.fetchData].
    unfold Dashboard.allTags. rewrite chartData_counter.
    apply topFiveInKeyOrder_isTopFive.
  - unfold Dashboard.platformChartData.
    cbn [Dashboard.platformCounts Dashboard.fetchData].
    unfold Dashboard.allPlatforms. rewrite chartData_counter.
    apply topFiveInKeyOrder_isTopFive.
Qed.

Lemma charts_are_top_five_witness :
  isTopFive ["Gmail"; "Slack"; "Gmail"]
    (Dashboard.platformChartData
       (Dashboard.fetchData []
          [Password.mk "p1" "Gmail" "ann" "x" "Active" None None;
           Password.mk "p2" "Slack" "bob" "y" "Active" None None;
           Password.mk "p3" "Gmail" "cy" "z" "Active" None None] [])).
Proof.
  destruct (charts_are_top_five []
          [Password.mk "p1" "Gmail" "ann" "x" "Active" None None;
           Password.mk "p2" "Slack" "bob" "y" "Active" None None;
           Password.mk "p3" "Gmail" "cy" "z" "Active" None None] [])
    as [_ Hplatforms].
  - repeat constructor.
  - exact Hplatforms.
Defined.

Lemma count_occ_appName (passwords : list Password.t) (c : string) :
  count_occ string_dec (map Password.appName passwords) c =
  List.length (List.filter (fun p => String.eqb (Password.appName p) c) passwords).
Proof.
  induction passwords as [|p ps IH]; [reflexivity|].
  cbn [map count_occ List.filter].
  destruct (string_dec (Password.appName p) c) as [Heq | Hne].
  - rewrite (proj2 (String.eqb_eq _ _) Heq). cbn [List.length]. rewrite IH. reflexivity.
  - rewrite (proj2 (String.eqb_neq _ _) Hne). exact IH.
Qed.

Lemma filtered_by_platform (passwords : list Password.t) (c : string) :
  c <> "all" ->
  PasswordManager.filtered passwords "" c =
  List.filter (fun p => String.eqb (Password.appName p) c) passwords.
Proof.
  intros Hc. unfold PasswordManager.filtered, PasswordManager.platformMatch.
  apply filter_ext. intros p. rewrite searchMatch_empty_query.
  rewrite (proj2 (String.eqb_neq _ _) Hc). reflexivity.
Qed.

(** The count the dashboard holds for a platform is the number of rows the
    password screen lists when that platform is chosen and no query is
    typed; for a name that is no platform of a loaded password it holds no
    count.  (For platforms other than one called "all", and none a name
    inherited from [Object.prototype].) *)
Theorem dashboard_count_matches_filter :
  forall (passwords : list Password.t) (c : string),
    Forall (fun k => JSObject.plainKey k = true) (map Password.appName passwords) ->
    c <> "all" ->
    JSObject.get (Dashboard.allPlatforms passwords) c =
    if existsb (String.eqb c) (PasswordScreen.platforms passwords)
    then Some (Z.of_nat (List.length (PasswordManager.filtered passwords "" c)))
    else None.
Proof.
  intros passwords c _ Hc. unfold Dashboard.allPlatforms. rewrite counter_spec.
  destruct (existsb (String.eqb c) (PasswordScreen.platforms passwords)) eqn:Hlisted.
  - apply existsb_eqb_In, platforms_In in Hlisted.
    destruct Hlisted as [p [Hp Hname]].
    rewrite get_map_present.
    + unfold frequency. rewrite count_occ_appName, filtered_by_platform by exact Hc.
      reflexivity.
    + apply (proj2 (firstSeen_In _ _)). apply in_map_iff. exists p. auto.
  - apply get_map_absent. intros Hin.
    apply (proj1 (firstSeen_In _ _)) in Hin. apply in_map_iff in Hin.
    destruct Hin as [p [Hname Hp]].
    assert (Hlisted' : In c (PasswordScreen.platforms passwords))
      by (apply platforms_In; exists p; auto).
    apply existsb_eqb_In in Hlisted'. congruence.
Qed.

Lemma dashboard_count_witness :
  JSObject.get
    (Dashboard.allPlatforms
       [Password.mk "p1" "Gmail" "ann" "x" "Active" None None;
        Password.mk "p2" "Slack" "bob" "y" "Active" None None;
        Password.mk "p3" "Gmail" "cy" "z" "Active" None None]) "Gmail" = Some 2%Z.
Proof.
  apply (dashboard_count_matches_filter
       [Password.mk "p1" "Gmail" "ann" "x" "Active" None None;
        Password.mk "p2" "Slack" "bob" "y" "Active" None None;
        Password.mk "p3" "Gmail" "cy" "z" "Active" None None] "Gmail").
  - repeat constructor.
  - discriminate.
Defined.

(* ===================================================================== *)
(** ** The sidebar *)
(* ===================================================================== *)

(** Two prefixes of one string: one is a prefix of the other. *)
Lemma startsWith_comparable (s a b : string) :
  JS.startsWith s a = true -> JS.startsWith s b = true ->
  JS.startsWith a b = true \/ JS.startsWith b a = true.
Proof.
  revert a b. induction s as [|c s IH]; intros a b Ha Hb.
  - destruct a; [|discriminate]. right. apply startsWith_empty.
  - destruct a as [|x a]; [right; apply startsWith_empty|].
    destruct b as [|y b]; [left; apply startsWith_empty|].
    cbn [JS.startsWith] in *.
    apply andb_true_iff in Ha. destruct Ha as [Hx Ha].
    apply andb_true_iff in Hb. destruct Hb as [Hy Hb].
    apply Ascii.eqb_eq in Hx. apply Ascii.eqb_eq in Hy. subst x y.
    rewrite Ascii.eqb_refl. cbn [andb]. apply (IH a b Ha Hb).
Qed.

(** Whatever the path, at most one entry of the sidebar is marked active. *)
Theorem at_most_one_sidebar_entry_active :
  forall pathname : string,
    (List.length (List.filter (fun b : bool => b)
                    (DashboardLayout.activeEntries pathname)) <= 1)%nat.
Proof.
  intros pathname. unfold DashboardLayout.activeEntries.
  destruct (DashboardLayout.dashboardActive pathname) eqn:Hd.
  - apply String.eqb_eq in Hd. subst pathname. cbn. lia.
  - destruct (DashboardLayout.apiKeysActive pathname) eqn:Hk;
      destruct (DashboardLayout.passwordsActive pathname) eqn:Hp;
      destruct (DashboardLayout.notesActive pathname) eqn:Hn;
      cbn [List.filter List.length]; try lia; exfalso;
      unfold DashboardLayout.apiKeysActive, DashboardLayout.passwordsActive,
        DashboardLayout.notesActive in *.
    + destruct (startsWith_comparable _ _ _ Hk Hp) as [H | H]; vm_compute in H;
        discriminate.
    + destruct (startsWith_comparable _ _ _ Hk Hp) as [H | H]; vm_compute in H;
        discriminate.
    + destruct (startsWith_comparable _ _ _ Hk Hn) as [H | H]; vm_compute in H;
        discriminate.
    + destruct (startsWith_comparable _ _ _ Hp Hn) as [H | H]; vm_compute in H;
        discriminate.
Qed.

Example sidebar_examples :
  map DashboardLayout.activeEntries
    ["/dashboard"; "/dashboard/"; "/dashboard/notes/42"; "/dashboard/api-keys-old"] =
  [[true; false; false; false]; [false; false; false; false];
   [false; false; false; true]; [false; true; false; false]].
Proof. reflexivity. Qed.

(* ===================================================================== *)
(** ** Walking the pages *)
(* ===================================================================== *)

Lemma set_currentPage_same (st : PasswordManager.State) :
  PasswordManager.set_currentPage (PasswordManager.currentPage st) st = st.
Proof. destruct st. reflexivity. Qed.

Lemma set_currentPage_twice (a b : Z) (st : PasswordManager.State) :
  PasswordManager.set_currentPage a (PasswordManager.set_currentPage b st) =
  PasswordManager.set_currentPage a st.
Proof. reflexivity. Qed.

(** Before the last page, [Next] is enabled and moves one page on, and
    [Previous] after it comes back to the state left. *)
Theorem next_then_previous_returns :
  forall st : PasswordManager.State,
    (1 <= PasswordManager.currentPage st < PasswordManager.totalPages st)%Z ->
    PasswordManager.nextDisabled st = false /\
    PasswordManager.currentPage (PasswordManager.clickNext st) =
      (PasswordManager.currentPage st + 1)%Z /\
    PasswordManager.clickPrevious (PasswordManager.clickNext st) = st.
Proof.
  intros st Hcur.
  assert (Hnext : PasswordManager.clickNext st =
                  PasswordManager.set_currentPage (PasswordManager.currentPage st + 1) st).
  { unfold PasswordManager.clickNext, PasswordManager.nextDisabled,
      PasswordManager.nextPage.
    destruct (Z.eqb_spec (PasswordManager.currentPage st) (PasswordManager.totalPages st));
      [lia|].
    f_equal. lia. }
  split; [|split].
  - unfold PasswordManager.nextDisabled. apply Z.eqb_neq. lia.
  - rewrite Hnext. reflexivity.
  - rewrite Hnext. unfold PasswordManager.clickPrevious, PasswordManager.previousDisabled,
      PasswordManager.previousPage.
    cbn [PasswordManager.currentPage PasswordManager.set_currentPage].
    destruct (Z.eqb_spec (PasswordManager.currentPage st + 1) 1); [lia|].
    rewrite set_currentPage_twice.
    replace (Z.max (PasswordManager.currentPage st + 1 - 1) 1)
      with (PasswordManager.currentPage st) by lia.
    apply set_currentPage_same.
Qed.

Lemma next_then_previous_witness :
  let st := PasswordManager.handleEntriesPerPageChange PasswordManager.Show10
              (PasswordManager.set_passwords
                 (List.repeat (Password.mk "a" "Slack" "ann" "x" "Active" None None) 25)
                 (PasswordManager.initialState None)) in
  PasswordManager.clickPrevious (PasswordManager.clickNext st) = st.
Proof.
  intros st. apply (next_then_previous_returns st).
  vm_compute. split; [intros H; discriminate H | reflexivity].
Defined.

(** When nothing matches, [Next] and [Previous] stay clickable in turn but
    only move the page between 1 and 0: the table stays empty and the
    indicator stays at "Page 0 of 0". *)
Theorem navigation_over_nothing :
  forall (st : PasswordManager.State) (o : PasswordManager.EntriesOption),
    PasswordManager.entriesPerPage st = PasswordManager.entriesNumber o ->
    PasswordManager.filteredPasswords st = [] ->
    (PasswordManager.currentPage st = 1%Z ->
     PasswordManager.nextDisabled st = false /\
     PasswordManager.currentPage (PasswordManager.clickNext st) = 0%Z) /\
    (PasswordManager.currentPage st = 0%Z ->
     PasswordManager.previousDisabled st = false /\
     PasswordManager.currentPage (PasswordManager.clickPrevious st) = 1%Z) /\
    PasswordManager.paginatedPasswords (PasswordManager.clickNext st) = [] /\
    PasswordManager.paginatedPasswords (PasswordManager.clickPrevious st) = [] /\
    PasswordManager.pageIndicator (PasswordManager.clickNext st) = "Page 0 of 0" /\
    PasswordManager.pageIndicator (PasswordManager.clickPrevious st) = "Page 0 of 0".
Proof.
  intros st o Ho Hnone.
  assert (Hper : (0 < PasswordManager.entriesPerPage st)%Z)
    by (rewrite Ho; apply entriesNumber_pos).
  pose proof (totalPages_empty st Hper Hnone) as Hzero.
  assert (Hpage : forall st', PasswordManager.filteredPasswords st' = [] ->
                              PasswordManager.paginatedPasswords st' = []).
  { intros st' Hst'. unfold PasswordManager.paginatedPasswords. cbv zeta.
    rewrite Hst'. apply slice_nil. }
  assert (Hind : forall st', PasswordManager.totalPages st' = 0%Z ->
                             PasswordManager.pageIndicator st' = "Page 0 of 0").
  { intros st' Hst'. unfold PasswordManager.pageIndicator. rewrite Hst'. reflexivity. }
  assert (Hnext : PasswordManager.filteredPasswords (PasswordManager.clickNext st) = [] /\
                  PasswordManager.totalPages (PasswordManager.clickNext st) = 0%Z).
  { unfold PasswordManager.clickNext.
    destruct (PasswordManager.nextDisabled st); split; assumption. }
  assert (Hprev : PasswordManager.filteredPasswords (PasswordManager.clickPrevious st) = [] /\
                  PasswordManager.totalPages (PasswordManager.clickPrevious st) = 0%Z).
  { unfold PasswordManager.clickPrevious.
    destruct (PasswordManager.previousDisabled st); split; assumption. }
  split; [|split; [|split; [|split; [|split]]]].
  - intros Hone. unfold PasswordManager.clickNext, PasswordManager.nextDisabled,
      PasswordManager.nextPage.
    rewrite Hone, Hzero. split; reflexivity.
  - intros Hzero'. unfold PasswordManager.clickPrevious, PasswordManager.previousDisabled,
      PasswordManager.previousPage.
    rewrite Hzero'. split; reflexivity.
  - apply Hpage, Hnext.
  - apply Hpage, Hprev.
  - apply Hind, Hnext.
  - apply Hind, Hprev.
Qed.

Lemma navigation_over_nothing_witness :
  PasswordManager.pageIndicator
    (PasswordManager.clickNext (PasswordManager.initialState None)) = "Page 0 of 0".
Proof.
  destruct (navigation_over_nothing (PasswordManager.initialState None)
              PasswordManager.Show50 eq_refl eq_refl) as [_ [_ [_ [_ [Hind _]]]]].
  exact Hind.
Defined.
